(** * Worker/queue assignment and datapath nodes of grout

    A shallow embedding of three parts of the router:
    - [Tx]: the [eth_tx] graph node of [modules/infra/datapath/tx.c];
    - [Ip6Output]: the [ip6_output] graph node of
      [modules/ip6/datapath/ip6_output.c];
    - [Worker]: the RX queue assignment engine exercised by
      [modules/infra/control/worker_test.c].

    Pointers are natural numbers into explicit stores, C arrays are lists read
    with [!!], and a read through a dangling pointer or outside an array makes
    the embedded function return [None]. *)

From stdpp Require Import base option list gmap strings.
From Stdlib Require Import ZArith Lia.

Set Warnings "-abstract-large-number".

Local Open Scope Z_scope.

(** ** The eth_tx node (tx.c) *)
Module Tx.

(** [TX_ERROR] and [NO_PORT], the two edges of the node. *)
Definition TX_ERROR : Z := 0.
Definition NO_PORT : Z := 1.

Definition UINT16_MAX : Z := 65535.

(** [uint16_t] arithmetic of [count += ...]. *)
Definition u16 (z : Z) : Z := z mod 65536.

(** An mbuf as the node sees it: an identity and what [tx_mbuf_priv] returns,
    [None] for [NULL] and [Some port_id] for a private area holding that port. *)
Record rte_mbuf := {
  mbuf_id : nat;
  tx_mbuf_priv : option Z
}.

#[global] Instance rte_mbuf_eq_dec : EqDecision rte_mbuf.
Proof. solve_decision. Defined.

(** What the node does to the outside: calls of the driver's
    [rte_eth_tx_burst] and of [rte_node_enqueue]. *)
Inductive event :=
| EthTxBurst (port_id txq_id : Z) (mbufs : list rte_mbuf)
| NodeEnqueue (edge : Z) (mbufs : list rte_mbuf).

#[global] Instance event_eq_dec : EqDecision event.
Proof. solve_decision. Defined.

Definition is_tx_burst (e : event) : bool :=
  match e with EthTxBurst _ _ _ => true | NodeEnqueue _ _ => false end.

(** [struct tx_ctx]: the array [txq_ids], indexed by port id. *)
Record tx_ctx := { txq_ids : list Z }.

(** The local variables of [tx_process] together with the events so far. *)
Record tx_state := {
  port_id : Z;
  burst_start : nat;
  count : Z;
  trace : list event
}.

Section WithDriver.

(** The driver: [rte_eth_tx_burst port_id txq_id mbufs] is the number of
    packets of [mbufs] it accepted. *)
Variable rte_eth_tx_burst : Z -> Z -> list rte_mbuf -> nat.

(** [&objs[start]] with a length of [n]. *)
Definition slice (objs : list rte_mbuf) (start n : nat) : list rte_mbuf :=
  take n (drop start objs).

(** [tx_burst]: returns [tx_ok] and the events of the call; [None] when
    [port_id] is outside [ctx->txq_ids]. *)
Definition tx_burst (ctx : tx_ctx) (port : Z) (mbufs : list rte_mbuf)
  : option (nat * list event) :=
  txq_id ← txq_ids ctx !! Z.to_nat port;
  let n := length mbufs in
  let tx_ok := rte_eth_tx_burst port txq_id mbufs in
  Some (tx_ok,
        EthTxBurst port txq_id mbufs ::
        (if (tx_ok <? n)%nat then [NodeEnqueue TX_ERROR (drop tx_ok mbufs)] else [])).

(** [count += tx_burst(graph, node, st.port_id, &objs[st.burst_start], i - st.burst_start)] *)
Definition flush (ctx : tx_ctx) (objs : list rte_mbuf) (i : nat) (st : tx_state)
  : option tx_state :=
  '(tx_ok, evs) ← tx_burst ctx (port_id st) (slice objs (burst_start st) (i - burst_start st));
  Some {| port_id := port_id st;
          burst_start := burst_start st;
          count := u16 (count st + Z.of_nat tx_ok);
          trace := trace st ++ evs |}.

(** One iteration of the [for] loop of [tx_process], at index [i] on [mbuf]. *)
Definition tx_step (ctx : tx_ctx) (objs : list rte_mbuf) (i : nat) (mbuf : rte_mbuf)
    (st : tx_state) : option tx_state :=
  match tx_mbuf_priv mbuf with
  | None =>
      Some {| port_id := port_id st; burst_start := burst_start st; count := count st;
              trace := trace st ++ [NodeEnqueue NO_PORT [mbuf]] |}
  | Some priv_port_id =>
      if bool_decide (priv_port_id ≠ port_id st) then
        (* burst_start = i; *)
        let st1 := {| port_id := port_id st; burst_start := i; count := count st;
                      trace := trace st |} in
        (* if (burst_start != i) count += tx_burst(...); *)
        st2 ← (if bool_decide (burst_start st1 ≠ i) then flush ctx objs i st1 else Some st1);
        (* port_id = priv->port_id; *)
        Some {| port_id := priv_port_id; burst_start := burst_start st2;
                count := count st2; trace := trace st2 |}
      else Some st
  end.

(** The [for (i = 0; i < nb_objs; i++)] loop, started at index [i] on the
    packets [rest] that remain. *)
Fixpoint tx_loop (ctx : tx_ctx) (objs : list rte_mbuf) (i : nat) (rest : list rte_mbuf)
    (st : tx_state) : option tx_state :=
  match rest with
  | [] => Some st
  | mbuf :: rest' => st' ← tx_step ctx objs i mbuf st; tx_loop ctx objs (S i) rest' st'
  end.

(** [tx_process]: the returned count and the events, [nb_objs] being the
    length of [objs]. *)
Definition tx_process (ctx : tx_ctx) (objs : list rte_mbuf) : option (Z * list event) :=
  let st0 := {| port_id := UINT16_MAX; burst_start := 0%nat; count := 0; trace := [] |} in
  st ← tx_loop ctx objs 0%nat objs st0;
  let i := length objs in
  st' ← (if bool_decide (burst_start st ≠ i) then flush ctx objs i st else Some st);
  Some (count st', trace st').

End WithDriver.

(** The maximal runs of consecutive packets that carry the same port, packets
    without TX metadata left out: what the node is described to send. *)
Fixpoint runs (objs : list rte_mbuf) : list (Z * list rte_mbuf) :=
  match objs with
  | [] => []
  | m :: objs' =>
      match tx_mbuf_priv m with
      | None => runs objs'
      | Some p =>
          match runs objs' with
          | (p', ms) :: rs =>
              if bool_decide (p = p') then (p, m :: ms) :: rs else (p, [m]) :: (p', ms) :: rs
          | [] => [(p, [m])]
          end
      end
  end.

Definition n_tx_bursts (evs : list event) : nat := length (filter is_tx_burst evs).

(** A driver that accepts every packet it is offered. *)
Definition accept_all (_ _ : Z) (mbufs : list rte_mbuf) : nat := length mbufs.

(** The mbufs an event hands over. *)
Definition event_mbufs (e : event) : list rte_mbuf :=
  match e with EthTxBurst _ _ ms => ms | NodeEnqueue _ ms => ms end.

(** The [NO_PORT] enqueues of a burst: one per packet without TX metadata,
    in the order of the burst. *)
Definition no_port_events (objs : list rte_mbuf) : list event :=
  (λ m, NodeEnqueue NO_PORT [m]) <$> filter (λ m, tx_mbuf_priv m = None) objs.

(** The port of the last packet of [objs] that has TX metadata, [init] when
    there is none. *)
Definition last_port (init : Z) (objs : list rte_mbuf) : Z :=
  foldl (λ p m, default p (tx_mbuf_priv m)) init objs.

(** The values of [port_id] and [burst_start] after the loop of [tx_process]
    ran over [rest], started at index [i] with the values [port] and
    [start]. *)
Fixpoint scan (port : Z) (start i : nat) (rest : list rte_mbuf) : Z * nat :=
  match rest with
  | [] => (port, start)
  | m :: rest' =>
      match tx_mbuf_priv m with
      | Some p => if bool_decide (p ≠ port) then scan p i (S i) rest'
                  else scan port start (S i) rest'
      | None => scan port start (S i) rest'
      end
  end.

(** *** tx_init *)

(** The two variables [tx_init] keeps between calls: its [static bool once]
    and the global [tx_mbuf_priv_offset], which starts at -1. *)
Record tx_globals := {
  once : bool;
  tx_mbuf_priv_offset : Z
}.

Definition tx_globals_init : tx_globals := {| once := false; tx_mbuf_priv_offset := -1 |}.

(** What one call of [tx_init] gets from outside, should it ask: the return
    value of [rte_mbuf_dynfield_register], the [txq_ids] of the node data
    that [br_node_data_get] finds ([None] for [NULL]), and whether
    [rte_malloc] succeeds. *)
Record init_answers := {
  register_ret : Z;
  node_data : option (list Z);
  malloc_ok : bool
}.

(** The calls [tx_init] makes. *)
Inductive init_event :=
| DynfieldRegister
| NodeDataGet
| Malloc.

#[global] Instance init_event_eq_dec : EqDecision init_event.
Proof. solve_decision. Defined.

(** [tx_init]: the return value, the variables kept between calls, the
    context stored in [node->ctx_ptr1] ([None] when the node is left as it
    is) and the calls made. *)
Definition tx_init (g : tx_globals) (a : init_answers)
  : Z * tx_globals * option tx_ctx * list init_event :=
  let '(g1, ev1) :=
    if negb (once g)
    then ({| once := true; tx_mbuf_priv_offset := register_ret a |}, [DynfieldRegister])
    else (g, []) in
  if tx_mbuf_priv_offset g1 <? 0 then (-1, g1, None, ev1)
  else
    match node_data a with
    | None => (-1, g1, None, ev1 ++ [NodeDataGet])
    | Some ids =>
        if malloc_ok a
        then (0, g1, Some {| txq_ids := ids |}, ev1 ++ [NodeDataGet; Malloc])
        else (-1, g1, None, ev1 ++ [NodeDataGet; Malloc])
    end.

(** The number of calls of [rte_mbuf_dynfield_register] among [evs]. *)
Definition n_registers (evs : list init_event) : nat :=
  length (filter (λ e, e = DynfieldRegister) evs).

(** [tx_init] called for one node after the other: the return values, the
    variables at the end and all the calls made. *)
Fixpoint tx_init_all (g : tx_globals) (calls : list init_answers)
  : list Z * tx_globals * list init_event :=
  match calls with
  | [] => ([], g, [])
  | a :: calls' =>
      let '(ret, g1, _, evs) := tx_init g a in
      let '(rets, g2, evs') := tx_init_all g1 calls' in
      (ret :: rets, g2, evs ++ evs')
  end.

End Tx.

(** ** The ip6_output node (ip6_output.c) *)
Module Ip6Output.

(** The edges of the node, [enum { ETH_OUTPUT = 0, NO_ROUTE, ERROR, QUEUE_FULL, EDGE_COUNT }]. *)
Definition ETH_OUTPUT : Z := 0.
Definition NO_ROUTE : Z := 1.
Definition ERROR : Z := 2.
Definition QUEUE_FULL : Z := 3.
Definition EDGE_COUNT : Z := 4.

(** [ARRAY_DIM(edges)] for [static rte_edge_t edges[128]]. *)
Definition EDGES_DIM : nat := 128.

(** [static rte_edge_t edges[128] = {ETH_OUTPUT}]: every slot starts at 0. *)
Definition edges_init : list Z := replicate EDGES_DIM ETH_OUTPUT.

(** [struct rte_ipv6_addr] is [uint8_t a[16]] and [struct rte_ether_addr] is
    [uint8_t addr_bytes[6]]: the bytes in memory order. *)
Definition rte_ipv6_addr := list Z.
Definition rte_ether_addr := list Z.

(** [rte_ipv6_addr_eq]: the sixteen bytes are the same. *)
Definition rte_ipv6_addr_eq (a b : rte_ipv6_addr) : bool := bool_decide (a = b).

(** Modelled from the spec: [RTE_ETHER_TYPE_IPV6] and [RTE_BE16] come from
    DPDK headers outside the sources; the ether-type is set to IPv6 in
    big-endian, that is the bytes 0x86 0xDD in memory order. *)
Definition RTE_ETHER_TYPE_IPV6 : Z := 0x86DD.
Definition RTE_BE16 (v : Z) : list Z := [Z.shiftr v 8; Z.land v 0xFF].

(** Modelled from the spec: [RTE_IPV6_MAX_DEPTH] comes from DPDK's rte_fib6.h;
    the route inserted on promotion is a /128 route. *)
Definition RTE_IPV6_MAX_DEPTH : Z := 128.

(** [struct iface], of which the node reads [type_id] and keeps the pointer. *)
Record iface := { id : nat; type_id : nat }.

(** [struct nexthop6]. The hold queue is an intrusive singly linked list of
    mbufs: [held_pkts_head] and [held_pkts_tail] point into the mbuf store.
    The spinlock [lock] is taken and released around the queue update and has
    no content in a sequential run. *)
Record nexthop6 := {
  vrf_id : nat;
  iface_id : nat;
  ip : rte_ipv6_addr;
  lladdr : rte_ether_addr;
  flags : Z;
  held_pkts_head : option nat;
  held_pkts_tail : option nat;
  held_pkts_num : Z
}.

(** [struct eth_output_mbuf_data]: destination MAC, ether-type (the two bytes
    in memory order) and egress interface. *)
Record eth_output_mbuf_data := {
  dst : rte_ether_addr;
  ether_type : list Z;
  eth_iface : option iface
}.

(** An mbuf: the IPv6 destination of its header ([ip->dst_addr]) and the
    per-node private data, [ip6_output_mbuf_data(mbuf)->nh],
    [queue_mbuf_data(mbuf)->next] and [eth_output_mbuf_data(mbuf)], kept as
    separate fields. *)
Record rte_mbuf := {
  dst_addr : rte_ipv6_addr;
  nh : option nat;
  next : option nat;
  eth_data : eth_output_mbuf_data
}.

(** Calls that leave the node. *)
Inductive event :=
| NodeEnqueue (edge : Z) (mbuf : nat)
| NexthopSolicit (nh : nat)
| NexthopNew (vrf ifc : nat) (addr : rte_ipv6_addr) (ret : option nat)
| RouteInsert (vrf : nat) (addr : rte_ipv6_addr) (depth : Z) (nh : nat) (ret : Z).

(** What the node uses and the sources do not define: the flag bits and the
    hold limit of gr_ip6_control.h, DPDK's address helpers, the interface
    table, and the next-hop and route operations of the control plane.
    [ip6_nexthop_new] works on the next-hop store and returns the new
    pointer, [None] for [NULL]; [ip6_route_insert] works on the route table
    [fib_t] and returns the C return code; neither writes to an mbuf.
    [ip6_nexthop_solicit] is recorded as an event only: it is taken not to
    write the fields of [struct nexthop6] kept here. *)
Class Externals := {
  fib_t : Type;
  GR_IFACE_TYPE_UNDEF : nat;
  GR_IP6_NH_F_REACHABLE : Z;
  GR_IP6_NH_F_PENDING : Z;
  GR_IP6_NH_F_LINK : Z;
  IP6_NH_MAX_HELD_PKTS : Z;
  rte_ipv6_addr_is_mcast : rte_ipv6_addr -> bool;
  rte_ether_mcast_from_ipv6 : rte_ipv6_addr -> rte_ether_addr;
  iface_from_id : nat -> option iface;
  gr_node_attach_parent : string -> string -> Z;
  ip6_nexthop_new :
    gmap nat nexthop6 -> nat -> nat -> rte_ipv6_addr -> option nat * gmap nat nexthop6;
  ip6_route_insert : fib_t -> nat -> rte_ipv6_addr -> Z -> nat -> Z * fib_t
}.

(** [ABORT(...)] ends the process; otherwise the call returns. *)
Inductive outcome (A : Type) :=
| Aborted (msg : string)
| Returned (a : A).
Arguments Aborted {A} msg.
Arguments Returned {A} a.

Section Node.
Context {E : Externals}.

(** [nh->flags & bit] as a C condition. *)
Definition has_flag (n : nexthop6) (bit : Z) : bool := negb (Z.land (flags n) bit =? 0).

(** [ip6_output_add_tunnel] on the table [edges]. The table has
    [ARRAY_DIM(edges)] entries, so that the read behind the range check always
    finds one; the last case only makes the function total on shorter
    lists. *)
Definition ip6_output_add_tunnel (edges : list Z) (iface_type_id : nat) (next_node : string)
  : outcome (list Z) :=
  if bool_decide (iface_type_id = GR_IFACE_TYPE_UNDEF) || (EDGES_DIM <=? iface_type_id)%nat
  then Aborted "invalid iface type"
  else
    match edges !! iface_type_id with
    | Some e =>
        if bool_decide (e ≠ ETH_OUTPUT) then Aborted "next node already registered for iface type"
        else Returned (<[iface_type_id := gr_node_attach_parent "ip6_output" next_node]> edges)
    | None => Aborted "edges is shorter than ARRAY_DIM(edges)"
    end.

(** The state the node works on: the next-hop store, the mbuf store, the
    route table and the calls made so far. *)
Record state := {
  nexthops : gmap nat nexthop6;
  mbufs : gmap nat rte_mbuf;
  fib : fib_t;
  trace : list event
}.

Definition set_nexthops (s : state) (nhs : gmap nat nexthop6) : state :=
  {| nexthops := nhs; mbufs := mbufs s; fib := fib s; trace := trace s |}.
Definition set_mbufs (s : state) (ms : gmap nat rte_mbuf) : state :=
  {| nexthops := nexthops s; mbufs := ms; fib := fib s; trace := trace s |}.
Definition set_fib (s : state) (f : fib_t) : state :=
  {| nexthops := nexthops s; mbufs := mbufs s; fib := f; trace := trace s |}.
Definition emit (s : state) (e : event) : state :=
  {| nexthops := nexthops s; mbufs := mbufs s; fib := fib s; trace := trace s ++ [e] |}.

Definition set_next (mb : rte_mbuf) (p : option nat) : rte_mbuf :=
  {| dst_addr := dst_addr mb; nh := nh mb; next := p; eth_data := eth_data mb |}.
Definition set_nh (mb : rte_mbuf) (p : option nat) : rte_mbuf :=
  {| dst_addr := dst_addr mb; nh := p; next := next mb; eth_data := eth_data mb |}.
Definition set_eth_data (mb : rte_mbuf) (d : eth_output_mbuf_data) : rte_mbuf :=
  {| dst_addr := dst_addr mb; nh := nh mb; next := next mb; eth_data := d |}.

Definition set_flags (n : nexthop6) (f : Z) : nexthop6 :=
  {| vrf_id := vrf_id n; iface_id := iface_id n; ip := ip n; lladdr := lladdr n;
     flags := f; held_pkts_head := held_pkts_head n; held_pkts_tail := held_pkts_tail n;
     held_pkts_num := held_pkts_num n |}.
Definition set_held (n : nexthop6) (h t : option nat) (num : Z) : nexthop6 :=
  {| vrf_id := vrf_id n; iface_id := iface_id n; ip := ip n; lladdr := lladdr n;
     flags := flags n; held_pkts_head := h; held_pkts_tail := t; held_pkts_num := num |}.

(** [rte_node_enqueue_x1(graph, node, edge, mbuf)] *)
Definition enqueue (s : state) (edge : Z) (mbuf : nat) : state := emit s (NodeEnqueue edge mbuf).

Inductive hold_status_t := OK_TO_SEND | HELD | HOLD_QUEUE_FULL.

(** The queue update of [maybe_hold_packet] done under [nh->lock], on the
    mbuf store in which [mbuf]'s [next] was already cleared. *)
Definition hold_enqueue (ms : gmap nat rte_mbuf) (n : nexthop6) (mbuf : nat)
  : option (gmap nat rte_mbuf * nexthop6) :=
  match held_pkts_head n with
  | None => Some (ms, set_held n (Some mbuf) (Some mbuf) (held_pkts_num n + 1))
  | Some h =>
      t ← held_pkts_tail n;
      tmb ← ms !! t;
      Some (<[t := set_next tmb (Some mbuf)]> ms,
            set_held n (Some h) (Some mbuf) (held_pkts_num n + 1))
  end.

(** [maybe_hold_packet(nh, mbuf)], [nh_p] and [mbuf] being pointers. *)
Definition maybe_hold_packet (s : state) (nh_p mbuf : nat) : option (hold_status_t * state) :=
  n ← nexthops s !! nh_p;
  mb ← mbufs s !! mbuf;
  if has_flag n GR_IP6_NH_F_REACHABLE || rte_ipv6_addr_is_mcast (dst_addr mb) then
    Some (OK_TO_SEND, s)
  else if held_pkts_num n <? IP6_NH_MAX_HELD_PKTS then
    '(ms, n1) ← hold_enqueue (<[mbuf := set_next mb None]> (mbufs s)) n mbuf;
    let s1 := set_mbufs s ms in
    if negb (has_flag n1 GR_IP6_NH_F_PENDING) then
      let s2 := emit s1 (NexthopSolicit nh_p) in
      Some (HELD, set_nexthops s2
                    (<[nh_p := set_flags n1 (Z.lor (flags n1) GR_IP6_NH_F_PENDING)]> (nexthops s2)))
    else Some (HELD, set_nexthops s1 (<[nh_p := n1]> (nexthops s1)))
  else Some (HOLD_QUEUE_FULL, s).

(** Lines 91 to 105 of [ip6_output_process]: the edge on which the packet
    leaves at once ([inl]), or the next hop and interface with which it goes
    on, the edge being [ETH_OUTPUT] then ([inr]). *)
Definition select_edge (edges : list Z) (s : state) (mbuf : nat)
  : option (Z + nat * iface) :=
  mb ← mbufs s !! mbuf;
  match nh mb with
  | None => Some (inl NO_ROUTE)
  | Some nh_p =>
      n ← nexthops s !! nh_p;
      match iface_from_id (iface_id n) with
      | None => Some (inl ERROR)
      | Some ifc =>
          edge ← edges !! type_id ifc;
          if bool_decide (edge ≠ ETH_OUTPUT) then Some (inl edge) else Some (inr (nh_p, ifc))
      end
  end.

(** Lines 107 to 127: the on-demand /128 promotion. [inl edge] is the
    [goto next] with that edge, [inr p] the next hop to go on with. The
    fields [vrf_id] and [iface_id] of the connected next hop are read once:
    [ip6_nexthop_new] is taken to leave them as they are. *)
Definition promote (s : state) (nh_p mbuf : nat) : option (state * (Z + nat)) :=
  n ← nexthops s !! nh_p;
  mb ← mbufs s !! mbuf;
  if has_flag n GR_IP6_NH_F_LINK
     && negb (rte_ipv6_addr_is_mcast (dst_addr mb))
     && negb (rte_ipv6_addr_eq (dst_addr mb) (ip n))
  then
    let '(remote, nhs) := ip6_nexthop_new (nexthops s) (vrf_id n) (iface_id n) (dst_addr mb) in
    let s1 := emit (set_nexthops s nhs)
                (NexthopNew (vrf_id n) (iface_id n) (dst_addr mb) remote) in
    match remote with
    | None => Some (s1, inl ERROR)
    | Some r =>
        let '(ret, f) :=
          ip6_route_insert (fib s1) (vrf_id n) (dst_addr mb) RTE_IPV6_MAX_DEPTH r in
        let s2 := emit (set_fib s1 f)
                    (RouteInsert (vrf_id n) (dst_addr mb) RTE_IPV6_MAX_DEPTH r ret) in
        if ret <? 0 then Some (s2, inl ERROR)
        else
          mb2 ← mbufs s2 !! mbuf;
          Some (set_mbufs s2 (<[mbuf := set_nh mb2 (Some r)]> (mbufs s2)), inr r)
    end
  else Some (s, inr nh_p).

(** Lines 143 to 153: the ethernet metadata and the enqueue of a packet that
    is sent, on the edge [edge] chosen before. *)
Definition prepare_eth (s : state) (edge : Z) (nh_p : nat) (ifc : iface) (mbuf : nat)
  : option state :=
  n ← nexthops s !! nh_p;
  mb ← mbufs s !! mbuf;
  let d := {| dst := if rte_ipv6_addr_is_mcast (dst_addr mb)
                     then rte_ether_mcast_from_ipv6 (dst_addr mb) else lladdr n;
              ether_type := RTE_BE16 RTE_ETHER_TYPE_IPV6;
              eth_iface := Some ifc |} in
  Some (enqueue (set_mbufs s (<[mbuf := set_eth_data mb d]> (mbufs s))) edge mbuf).

(** [uint16_t] arithmetic of [sent++]. *)
Definition u16 (z : Z) : Z := z mod 65536.

(** The body of the [for] loop of [ip6_output_process] on one packet: the
    state and the value of [sent] afterwards. *)
Definition ip6_output_pkt (edges : list Z) (s : state) (sent : Z) (mbuf : nat)
  : option (state * Z) :=
  sel ← select_edge edges s mbuf;
  match sel with
  | inl edge => Some (enqueue s edge mbuf, sent)
  | inr (nh0, ifc) =>
      let edge := ETH_OUTPUT in
      '(s1, r) ← promote s nh0 mbuf;
      match r with
      | inl edge => Some (enqueue s1 edge mbuf, sent)
      | inr nh1 =>
          '(status, s2) ← maybe_hold_packet s1 nh1 mbuf;
          match status with
          | HELD => Some (s2, sent)
          | HOLD_QUEUE_FULL => Some (enqueue s2 QUEUE_FULL mbuf, sent)
          | OK_TO_SEND => s3 ← prepare_eth s2 edge nh1 ifc mbuf; Some (s3, u16 (sent + 1))
          end
      end
  end.

Fixpoint ip6_output_loop (edges : list Z) (s : state) (sent : Z) (objs : list nat)
  : option (state * Z) :=
  match objs with
  | [] => Some (s, sent)
  | mbuf :: objs' =>
      '(s', sent') ← ip6_output_pkt edges s sent mbuf; ip6_output_loop edges s' sent' objs'
  end.

(** [ip6_output_process] on the burst [objs]: the state afterwards and the
    returned [sent]. *)
Definition ip6_output_process (edges : list Z) (s : state) (objs : list nat)
  : option (state * Z) :=
  ip6_output_loop edges s 0 objs.

(** The hold queue as a list: the mbufs reached from [h] by following [next]. *)
Inductive held_chain (ms : gmap nat rte_mbuf) : option nat -> list nat -> Prop :=
| held_chain_nil : held_chain ms None []
| held_chain_cons p mb l :
    ms !! p = Some mb -> held_chain ms (next mb) l -> held_chain ms (Some p) (p :: l).

(** [n]'s hold queue holds exactly the packets [l], in this order. *)
Definition held_queue (ms : gmap nat rte_mbuf) (n : nexthop6) (l : list nat) : Prop :=
  held_chain ms (held_pkts_head n) l /\ (l ≠ [] -> held_pkts_tail n = last l).

(** The packet [mbuf], taken up in state [s0], reaches the hold-queue step
    (line 129) in state [s] with next hop [nh_p] and interface [ifc]: it left
    neither at lines 91 to 105 nor in the promotion. *)
Definition reaches_hold (edges : list Z) (s0 : state) (mbuf : nat)
    (s : state) (nh_p : nat) (ifc : iface) : Prop :=
  exists nh0, select_edge edges s0 mbuf = Some (inr (nh0, ifc))
              /\ promote s0 nh0 mbuf = Some (s, inr nh_p).

(** No next hop of the store holds more than [IP6_NH_MAX_HELD_PKTS] packets. *)
Definition hold_bounded (nhs : gmap nat nexthop6) : Prop :=
  forall p n, nhs !! p = Some n -> held_pkts_num n <= IP6_NH_MAX_HELD_PKTS.

(** No next hop of the store has the LINK flag. *)
Definition no_link (nhs : gmap nat nexthop6) : Prop :=
  forall p n, nhs !! p = Some n -> has_flag n GR_IP6_NH_F_LINK = false.

End Node.

(** The enqueues among [evs]: edge and mbuf, in order. *)
Definition enqueued (evs : list event) : list (Z * nat) :=
  omap (λ e, match e with NodeEnqueue edge mbuf => Some (edge, mbuf) | _ => None end) evs.

(** The number of enqueues on [ETH_OUTPUT] among [evs]. *)
Definition n_eth_output (evs : list event) : nat :=
  length (filter (λ x, x.1 = ETH_OUTPUT) (enqueued evs)).

(** The calls of [ip6_nexthop_solicit] among [evs]: the next hops, in order. *)
Definition solicited (evs : list event) : list nat :=
  omap (λ e, match e with NexthopSolicit p => Some p | _ => None end) evs.

(** An instance to run the node on: the flag bits and the limit of 256, the
    multicast test and MAC derivation of DPDK (first byte 0xff; 33:33 followed
    by the last four bytes), interfaces 0 to 7 of type 1 and 8 to 15 of type
    2, a next-hop allocator that succeeds when [alloc_ok] and a route insert
    that returns [route_ret]. *)
Definition sample_externals (alloc_ok : bool) (route_ret : Z) : Externals := {|
  fib_t := list (nat * rte_ipv6_addr * Z * nat);
  GR_IFACE_TYPE_UNDEF := 0;
  GR_IP6_NH_F_PENDING := 1;
  GR_IP6_NH_F_REACHABLE := 2;
  GR_IP6_NH_F_LINK := 16;
  IP6_NH_MAX_HELD_PKTS := 256;
  rte_ipv6_addr_is_mcast := fun a => bool_decide (a !! 0%nat = Some 0xff);
  rte_ether_mcast_from_ipv6 := fun a => [0x33; 0x33] ++ drop 12 a;
  iface_from_id := fun i =>
    if (i <? 8)%nat then Some {| id := i; type_id := 1 |}
    else if (i <? 16)%nat then Some {| id := i; type_id := 2 |} else None;
  gr_node_attach_parent := fun _ _ => EDGE_COUNT;
  ip6_nexthop_new := fun nhs vrf ifc a =>
    if alloc_ok then
      let p := fresh (dom nhs) in
      (Some p, <[p := {| vrf_id := vrf; iface_id := ifc; ip := a; lladdr := [];
                         flags := 0; held_pkts_head := None; held_pkts_tail := None;
                         held_pkts_num := 0 |}]> nhs)
    else (None, nhs);
  ip6_route_insert := fun f vrf a depth r =>
    if route_ret <? 0 then (route_ret, f) else (route_ret, (vrf, a, depth, r) :: f)
|}.

(** Sample data: two unicast addresses, the all-nodes multicast address, a
    next hop on interface [ifc] for the first address, and a store with that
    next hop at pointer 0 and one mbuf at pointer 0. *)
Definition addr_a : rte_ipv6_addr := [0x20; 0x01; 0x0d; 0xb8; 0; 0; 0; 0; 0; 0; 0; 0; 0; 0; 0; 1].
Definition addr_b : rte_ipv6_addr := [0x20; 0x01; 0x0d; 0xb8; 0; 0; 0; 0; 0; 0; 0; 0; 0; 0; 0; 2].
Definition addr_mcast : rte_ipv6_addr := [0xff; 0x02; 0; 0; 0; 0; 0; 0; 0; 0; 0; 0; 0; 0; 0; 1].

Definition sample_nh (ifc : nat) (fl num : Z) : nexthop6 :=
  {| vrf_id := 0; iface_id := ifc; ip := addr_a; lladdr := [2; 0; 0; 0; 0; 1];
     flags := fl; held_pkts_head := None; held_pkts_tail := None; held_pkts_num := num |}.

Definition sample_mbuf (d : rte_ipv6_addr) : rte_mbuf :=
  {| dst_addr := d; nh := Some 0%nat; next := None;
     eth_data := {| dst := []; ether_type := []; eth_iface := None |} |}.

Definition sample_state (alloc_ok : bool) (route_ret : Z) (n : nexthop6) (mb : rte_mbuf)
  : @state (sample_externals alloc_ok route_ret) :=
  @Build_state (sample_externals alloc_ok route_ret)
    {[ 0%nat := n ]} {[ 0%nat := mb ]} (@nil (nat * rte_ipv6_addr * Z * nat)) [].

(** A store whose next hop 0 is PENDING and already holds the mbuf at
    pointer 5; the mbuf at pointer 0 is for the same next hop. *)
Definition queued_nh : nexthop6 :=
  {| vrf_id := 0; iface_id := 1; ip := addr_a; lladdr := [2; 0; 0; 0; 0; 1];
     flags := 1; held_pkts_head := Some 5%nat; held_pkts_tail := Some 5%nat;
     held_pkts_num := 1 |}.

Definition queued_state : @state (sample_externals true 0) :=
  @Build_state (sample_externals true 0)
    {[ 0%nat := queued_nh ]}
    (<[0%nat := sample_mbuf addr_a]> (<[5%nat := sample_mbuf addr_a]> ∅))
    (@nil (nat * rte_ipv6_addr * Z * nat)) [].

(** The table after a tunnel node was registered for interface type 2. *)
Definition edges_tunnel : list Z := <[2%nat := EDGE_COUNT]> edges_init.

(** A store for a burst: next hop 0 is REACHABLE, next hop 1 is not and has
    another address; mbufs 0 and 4 go to next hop 0, mbufs 1 and 3 to next
    hop 1, mbuf 2 has no next hop. *)
Definition burst_nh1 : nexthop6 :=
  {| vrf_id := 0; iface_id := 1; ip := addr_b; lladdr := [2; 0; 0; 0; 0; 2];
     flags := 0; held_pkts_head := None; held_pkts_tail := None; held_pkts_num := 0 |}.

Definition burst_mbuf (d : rte_ipv6_addr) (p : option nat) : rte_mbuf :=
  {| dst_addr := d; nh := p; next := None;
     eth_data := {| dst := []; ether_type := []; eth_iface := None |} |}.

Definition burst_state : @state (sample_externals true 0) :=
  @Build_state (sample_externals true 0)
    (<[0%nat := sample_nh 1 2 0]> (<[1%nat := burst_nh1]> ∅))
    (<[0%nat := burst_mbuf addr_a (Some 0%nat)]>
       (<[1%nat := burst_mbuf addr_b (Some 1%nat)]>
          (<[2%nat := burst_mbuf addr_a None]>
             (<[3%nat := burst_mbuf addr_b (Some 1%nat)]>
                (<[4%nat := burst_mbuf addr_a (Some 0%nat)]> ∅)))))
    (@nil (nat * rte_ipv6_addr * Z * nat)) [].

(** The sample instance with every interface of type [ty], and a store for
    it with one next hop and one mbuf. *)
Definition externals_with_type (ty : nat) : Externals :=
  let E0 := sample_externals true 0 in
  {| fib_t := @fib_t E0;
     GR_IFACE_TYPE_UNDEF := @GR_IFACE_TYPE_UNDEF E0;
     GR_IP6_NH_F_REACHABLE := @GR_IP6_NH_F_REACHABLE E0;
     GR_IP6_NH_F_PENDING := @GR_IP6_NH_F_PENDING E0;
     GR_IP6_NH_F_LINK := @GR_IP6_NH_F_LINK E0;
     IP6_NH_MAX_HELD_PKTS := @IP6_NH_MAX_HELD_PKTS E0;
     rte_ipv6_addr_is_mcast := @rte_ipv6_addr_is_mcast E0;
     rte_ether_mcast_from_ipv6 := @rte_ether_mcast_from_ipv6 E0;
     iface_from_id := fun i => Some {| id := i; type_id := ty |};
     gr_node_attach_parent := @gr_node_attach_parent E0;
     ip6_nexthop_new := @ip6_nexthop_new E0;
     ip6_route_insert := @ip6_route_insert E0 |}.

Definition state_with_type (ty : nat) : @state (externals_with_type ty) :=
  @Build_state (externals_with_type ty)
    {[ 0%nat := sample_nh 1 2 0 ]} {[ 0%nat := sample_mbuf addr_a ]}
    (@nil (nat * rte_ipv6_addr * Z * nat)) [].

End Ip6Output.

(** ** RX queue assignment (worker_test.c, br_worker.h) *)
Module Worker.

(** [errno] values, returned negated. *)
Definition EBUSY : Z := 16.
Definition ENODEV : Z := 19.
Definition ERANGE : Z := 34.

(** [struct queue_map] of br_worker.h. *)
Record queue_map := {
  port_id : nat;
  queue_id : nat;
  enabled : bool
}.

#[global] Instance queue_map_eq_dec : EqDecision queue_map.
Proof. solve_decision. Defined.

(** [q(port_id, rxq_id)] of worker_test.c. *)
Definition q (port rxq : nat) : queue_map :=
  {| port_id := port; queue_id := rxq; enabled := true |}.

(** Modelled from the spec: [struct port] of br_port.h, outside the sources,
    as far as the tests and the spec use it; [pid] is its
    [port_id] field. *)
Record port := {
  pid : nat;
  n_rxq : nat;
  n_txq : nat
}.

(** [struct worker] of br_worker.h: the fields private to the control plane
    that the assignment works on. *)
Record worker := {
  cpu_id : nat;
  rxqs : list queue_map;
  txqs : list queue_map
}.

(** The two registries, [ports] and [workers], each in the order of its
    [LIST]: the head first. *)
Record state := {
  ports : list port;
  workers : list worker
}.

(** What the mocks of worker_test.c stand for: [rte_get_main_lcore()] and
    [numa_bitmask_isbitset(numa_all_cpus_ptr, cpu)]. *)
Record env := {
  main_lcore : nat;
  cpu_allowed : nat -> bool
}.

(** Modelled from the spec: [worker_count()] of worker.c, the number of live
    workers. *)
Definition worker_count (s : state) : nat := length (workers s).

(** Modelled from the spec: the lookup of a port by its id. *)
Definition port_find (ps : list port) (p : nat) : option port :=
  find (λ x, bool_decide (pid x = p)) ps.

(** Modelled from the spec: the lookup of the worker with a given [cpu_id]. *)
Definition worker_find (ws : list worker) (cpu : nat) : option worker :=
  find (λ w, bool_decide (cpu_id w = cpu)) ws.

(** The comparison of [assert_qmaps] in worker_test.c: same [port_id] and
    same [queue_id]. *)
Definition is_rxq (p r : nat) (m : queue_map) : bool :=
  bool_decide (port_id m = p) && bool_decide (queue_id m = r).

(** Modelled from the spec: step 1, the worker whose [rxqs] owns [(p, r)],
    if any. *)
Definition rxq_owner (ws : list worker) (p r : nat) : option worker :=
  find (λ w, existsb (is_rxq p r) (rxqs w)) ws.

Definition set_rxqs (w : worker) (l : list queue_map) : worker :=
  {| cpu_id := cpu_id w; rxqs := l; txqs := txqs w |}.
Definition set_txqs (w : worker) (l : list queue_map) : worker :=
  {| cpu_id := cpu_id w; rxqs := rxqs w; txqs := l |}.
Definition set_n_txq (p : port) (n : nat) : port :=
  {| pid := pid p; n_rxq := n_rxq p; n_txq := n |}.

(** Modelled from the spec: step 3, [src.rxqs] without [(p, r)]. *)
Definition rxq_remove (p r : nat) (w : worker) : worker :=
  set_rxqs w (filter (λ m, ¬ is_rxq p r m) (rxqs w)).

(** Modelled from the spec: step 3, [dst.rxqs] with [(p, r)], enabled,
    appended. *)
Definition rxq_append (p r : nat) (w : worker) : worker :=
  set_rxqs w (rxqs w ++ [q p r]).

(** Modelled from the spec: step 3 on one worker of the list: the
    destination gets the queue, the source (the worker on CPU [src]) loses it,
    the others stay. *)
Definition rxq_move (p r cpu : nat) (src : option nat) (w : worker) : worker :=
  if bool_decide (cpu_id w = cpu) then rxq_append p r w
  else if bool_decide (src = Some (cpu_id w)) then rxq_remove p r w
  else w.

(** Modelled from the spec: [worker_destroy] of worker.c for the worker on
    [cpu]: it leaves the list. *)
Definition worker_destroy (cpu : nat) (ws : list worker) : list worker :=
  filter (λ w, cpu_id w ≠ cpu) ws.

(** Modelled from the spec: step 4, the TX map of the worker with index [i]:
    one entry per known port, with queue id [i]. *)
Definition txqs_of (ps : list port) (i : nat) : list queue_map :=
  map (λ p, q (pid p) i) ps.

(** Modelled from the spec: step 4, the renumbering of the TX queue ids of
    all workers, by their place in the worker list as the tests of
    worker_test.c assert it. *)
Definition txq_renumber (ps : list port) (ws : list worker) : list worker :=
  imap (λ i w, set_txqs w (txqs_of ps i)) ws.

(** Modelled from the spec: steps 2, 3 and 5 of the queue assignment, which
    worker.c (outside the sources) does inside [worker_rxq_assign]: find or
    create the destination worker, move the queue from [src] to it, destroy
    [src] when it is left without RX queues. The result is the worker list
    and whether a worker was created or destroyed. The spec has a created
    worker appended to the end of the list, with the TX queue ids of the
    others kept; worker_test.c asserts TX queue id 0 for the created worker
    and other ids for the others (lines 233-234, 247-249, 261-263), and here
    the model follows the tests: a created worker is put at the head of the
    list, like the [LIST_INSERT_HEAD] of [setup], and [txq_renumber] numbers
    by place. The tests read workers by their CPU and not by their place, so
    they fix the TX queue ids and not the place: a list kept in the reverse
    order and numbered from its end gives the same ids. *)
Definition rxq_reassign (p r cpu : nat) (ws : list worker) : list worker * bool :=
  let src := rxq_owner ws p r in
  let created := bool_decide (worker_find ws cpu = None) in
  let ws1 := if created then {| cpu_id := cpu; rxqs := []; txqs := [] |} :: ws else ws in
  let ws2 := rxq_move p r cpu (cpu_id <$> src) <$> ws1 in
  match src with
  | Some w =>
      if bool_decide (rxqs (rxq_remove p r w) = [])
      then (worker_destroy (cpu_id w) ws2, true)
      else (ws2, created)
  | None => (ws2, created)
  end.

(** Modelled from the spec: [worker_rxq_assign] of worker.c, outside the
    sources. The steps are those of the spec's queue assignment engine:
    validation of the port (unknown: ENODEV), of the queue (not below
    [n_rxq]: ENODEV) and of the CPU (the main CPU: EBUSY; outside the
    allowance: ERANGE); no-op when the queue is already on that CPU;
    [rxq_reassign]; when the worker count changed, renumbering of the TX maps
    and every port's [n_txq] set to the worker count. Where the spec leaves a
    choice or differs from worker_test.c, the model takes what the tests
    assert: TX queue ids are the places in the worker list, they are
    renumbered only when a worker was created or destroyed, and the main CPU
    is checked before the allowance ([rxq_assign_main_lcore] mocks
    [rte_get_main_lcore] alone). The result is the C return value and the
    state after the call. *)
Definition worker_rxq_assign (e : env) (s : state) (p r cpu : nat) : Z * state :=
  match port_find (ports s) p with
  | None => (- ENODEV, s)
  | Some prt =>
      if bool_decide (n_rxq prt ≤ r)%nat then (- ENODEV, s)
      else if bool_decide (cpu = main_lcore e) then (- EBUSY, s)
      else if negb (cpu_allowed e cpu) then (- ERANGE, s)
      else if bool_decide (cpu_id <$> rxq_owner (workers s) p r = Some cpu) then (0, s)
      else
        let '(ws, reconfig) := rxq_reassign p r cpu (workers s) in
        if reconfig then
          (0, {| ports := (λ x, set_n_txq x (length ws)) <$> ports s;
                 workers := txq_renumber (ports s) ws |})
        else (0, {| ports := ports s; workers := ws |})
  end.

(** *** The scenario of worker_test.c *)

(** [assert_qmaps(qmaps, ...)]: same length, and every expected pair is found. *)
Definition assert_qmaps (qmaps expected : list queue_map) : bool :=
  bool_decide (length qmaps = length expected)
  && forallb (λ ex, existsb (is_rxq (port_id ex) (queue_id ex)) qmaps) expected.

(** [w.rxqs] and [w.txqs] of the static worker object for [cpu]: empty once
    the worker is destroyed. *)
Definition rxqs_at (s : state) (cpu : nat) : list queue_map :=
  default [] (rxqs <$> worker_find (workers s) cpu).
Definition txqs_at (s : state) (cpu : nat) : list queue_map :=
  default [] (txqs <$> worker_find (workers s) cpu).

(** [setup]: [p0], [p1], [p2] and then [w1], [w2] inserted at the head. *)
Definition setup : state :=
  {| ports := [ {| pid := 2; n_rxq := 2; n_txq := 0 |};
                {| pid := 1; n_rxq := 2; n_txq := 0 |};
                {| pid := 0; n_rxq := 2; n_txq := 0 |} ];
     workers := [ {| cpu_id := 2; rxqs := [q 1 1; q 2 0; q 2 1]; txqs := [q 0 1; q 1 1; q 2 1] |};
                  {| cpu_id := 1; rxqs := [q 0 0; q 0 1; q 1 0]; txqs := [q 0 0; q 1 0; q 2 0] |} ] |}.

(** [common_mocks]: main lcore 0, every CPU allowed. *)
Definition common_mocks : env := {| main_lcore := 0; cpu_allowed := λ _, true |}.

(** The state after each test; the group shares one [setup], so every test
    starts where the one before it ended. *)
Definition after_existing_worker : state := (worker_rxq_assign common_mocks setup 1 1 1).2.
Definition after_existing_worker_destroy1 : state :=
  (worker_rxq_assign common_mocks after_existing_worker 2 0 1).2.
Definition after_existing_worker_destroy : state :=
  (worker_rxq_assign common_mocks after_existing_worker_destroy1 2 1 1).2.
Definition after_new_worker : state :=
  (worker_rxq_assign common_mocks after_existing_worker_destroy 2 1 2).2.
Definition after_new_worker_destroy : state :=
  (worker_rxq_assign common_mocks after_new_worker 2 1 3).2.
Definition after_new_worker2 : state :=
  (worker_rxq_assign common_mocks after_new_worker_destroy 2 0 2).2.

(** The assertions of a test on the three worker objects and [worker_count()]. *)
Definition check (s : state) (n : nat) (rx1 rx2 rx3 tx1 tx2 tx3 : list queue_map) : bool :=
  bool_decide (worker_count s = n)
  && assert_qmaps (rxqs_at s 1) rx1 && assert_qmaps (rxqs_at s 2) rx2
  && assert_qmaps (rxqs_at s 3) rx3
  && assert_qmaps (txqs_at s 1) tx1 && assert_qmaps (txqs_at s 2) tx2
  && assert_qmaps (txqs_at s 3) tx3.

(** The ten tests of [main], in order. *)
Definition worker_test : bool :=
  (* rxq_assign_main_lcore *)
  bool_decide ((worker_rxq_assign {| main_lcore := 4; cpu_allowed := λ _, true |} setup 0 0 4).1
               = - EBUSY)
  (* rxq_assign_invalid_cpu *)
  && bool_decide ((worker_rxq_assign {| main_lcore := 0; cpu_allowed := λ _, false |} setup 0 0 9999).1
                  = - ERANGE)
  (* rxq_assign_invalid_port, rxq_assign_invalid_rxq *)
  && bool_decide ((worker_rxq_assign common_mocks setup 9999 0 1).1 = - ENODEV)
  && bool_decide ((worker_rxq_assign common_mocks setup 0 9999 1).1 = - ENODEV)
  (* rxq_assign_already_set *)
  && bool_decide ((worker_rxq_assign common_mocks setup 1 1 2).1 = 0)
  (* rxq_assign_existing_worker *)
  && bool_decide ((worker_rxq_assign common_mocks setup 1 1 1).1 = 0)
  && check after_existing_worker 2
       [q 0 0; q 0 1; q 1 0; q 1 1] [q 2 1; q 2 0] []
       [q 0 0; q 1 0; q 2 0] [q 0 1; q 1 1; q 2 1] []
  (* rxq_assign_existing_worker_destroy *)
  && bool_decide ((worker_rxq_assign common_mocks after_existing_worker 2 0 1).1 = 0)
  && check after_existing_worker_destroy1 2
       [q 0 0; q 0 1; q 1 0; q 1 1; q 2 0] [q 2 1] []
       [q 0 0; q 1 0; q 2 0] [q 0 1; q 1 1; q 2 1] []
  && bool_decide ((worker_rxq_assign common_mocks after_existing_worker_destroy1 2 1 1).1 = 0)
  && check after_existing_worker_destroy 1
       [q 0 0; q 0 1; q 1 0; q 1 1; q 2 0; q 2 1] [] []
       [q 1 0; q 2 0; q 0 0] [] []
  (* rxq_assign_new_worker *)
  && bool_decide ((worker_rxq_assign common_mocks after_existing_worker_destroy 2 1 2).1 = 0)
  && check after_new_worker 2
       [q 0 0; q 0 1; q 1 0; q 1 1; q 2 0] [q 2 1] []
       [q 0 1; q 1 1; q 2 1] [q 0 0; q 1 0; q 2 0] []
  (* rxq_assign_new_worker_destroy *)
  && bool_decide ((worker_rxq_assign common_mocks after_new_worker 2 1 3).1 = 0)
  && check after_new_worker_destroy 2
       [q 0 0; q 0 1; q 1 0; q 1 1; q 2 0] [] [q 2 1]
       [q 0 1; q 1 1; q 2 1] [] [q 0 0; q 1 0; q 2 0]
  (* rxq_assign_new_worker2 *)
  && bool_decide ((worker_rxq_assign common_mocks after_new_worker_destroy 2 0 2).1 = 0)
  && check after_new_worker2 3
       [q 0 0; q 0 1; q 1 0; q 1 1] [q 2 0] [q 2 1]
       [q 0 2; q 1 2; q 2 2] [q 0 0; q 1 0; q 2 0] [q 0 1; q 1 1; q 2 1].

(** *** The symmetric TX invariant *)

(** The entries of a TX map for port [P]. *)
Definition entries_for (P : nat) (qs : list queue_map) : list queue_map :=
  filter (λ m, port_id m = P) qs.

(** CPU ids identify workers and port ids identify ports. *)
Definition registries_wf (s : state) : Prop :=
  NoDup (cpu_id <$> workers s) /\ NoDup (pid <$> ports s).

(** With [idx] giving the index of the worker on a CPU: every live worker
    has, for every known port, exactly one TX entry, whose queue id is the
    worker's index; and [idx] maps the live workers one-to-one onto the
    numbers below [worker_count]. *)
Definition tx_symmetric (s : state) (idx : nat -> nat) : Prop :=
  (forall w prt, w ∈ workers s -> prt ∈ ports s ->
     exists m, entries_for (pid prt) (txqs w) = [m] /\ queue_id m = idx (cpu_id w))
  /\ (forall w, w ∈ workers s -> (idx (cpu_id w) < worker_count s)%nat)
  /\ (forall w1 w2, w1 ∈ workers s -> w2 ∈ workers s ->
        idx (cpu_id w1) = idx (cpu_id w2) -> w1 = w2)
  /\ (forall i, (i < worker_count s)%nat -> exists w, w ∈ workers s /\ idx (cpu_id w) = i).

(** The place of [c] in [l]. *)
Fixpoint index_of (c : nat) (l : list nat) : nat :=
  match l with
  | [] => 0
  | x :: l' => if bool_decide (x = c) then 0 else S (index_of c l')
  end.

(** Every worker of [s] that lives on in [s'] has, port by port, the TX
    queue id it had. *)
Definition keeps_txq_ids (s s' : state) : Prop :=
  forall w w' m, w ∈ workers s -> w' ∈ workers s' -> cpu_id w' = cpu_id w ->
    m ∈ txqs w ->
    exists m', m' ∈ txqs w' /\ port_id m' = port_id m /\ queue_id m' = queue_id m.

(** What [assert_qmaps] compares of a queue map: port and queue, not
    [enabled]. *)
Definition qkey (m : queue_map) : nat * nat := (port_id m, queue_id m).

End Worker.

(** ** Properties of the eth_tx node *)
Section TxProperties.
Import Tx.

Variable rte_eth_tx_burst : Z -> Z -> list rte_mbuf -> nat.

(** Inside the loop, [burst_start] was just set to [i] when it is compared
    with [i]: the guarded [tx_burst] never runs. *)
Lemma tx_step_no_burst ctx objs i mbuf st st' :
  tx_step rte_eth_tx_burst ctx objs i mbuf st = Some st' ->
  n_tx_bursts (trace st') = n_tx_bursts (trace st).
Proof.
  unfold tx_step, n_tx_bursts. intros H.
  destruct (tx_mbuf_priv mbuf) as [prt|].
  - case_bool_decide as Hp.
    + cbn [burst_start] in H.
      rewrite bool_decide_eq_false_2 in H by (intros Hne; now apply Hne).
      simplify_option_eq. reflexivity.
    + now simplify_eq.
  - simplify_eq. cbn [trace]. rewrite filter_app, length_app.
    change (filter is_tx_burst [NodeEnqueue NO_PORT [mbuf]]) with (@nil event).
    cbn. lia.
Qed.

Lemma tx_loop_no_burst ctx objs rest : forall i st st',
  tx_loop rte_eth_tx_burst ctx objs i rest st = Some st' ->
  n_tx_bursts (trace st') = n_tx_bursts (trace st).
Proof.
  induction rest as [|mbuf rest IH]; intros i st st' H; cbn in H.
  - now simplify_eq.
  - destruct (tx_step rte_eth_tx_burst ctx objs i mbuf st) as [st1|] eqn:Hs; [|discriminate].
    cbn in H. rewrite (IH _ _ _ H). eapply tx_step_no_burst, Hs.
Qed.

Lemma flush_one_burst ctx objs i st st' :
  flush rte_eth_tx_burst ctx objs i st = Some st' ->
  n_tx_bursts (trace st') = S (n_tx_bursts (trace st)).
Proof.
  unfold flush, tx_burst, n_tx_bursts. intros H.
  destruct (txq_ids ctx !! Z.to_nat (port_id st)) as [txq|]; [|discriminate].
  cbn in H. simplify_eq. cbn [trace].
  rewrite filter_app, length_app.
  rewrite filter_cons_True by exact I.
  match goal with |- context [if ?b then _ else _] => destruct b end.
  - change (filter is_tx_burst [NodeEnqueue ?e ?l]) with (@nil event). cbn. lia.
  - cbn. lia.
Qed.

(** Whatever the burst, one call of [tx_process] calls the driver at most
    once. *)
Lemma tx_process_at_most_one_burst ctx objs c evs :
  tx_process rte_eth_tx_burst ctx objs = Some (c, evs) ->
  (n_tx_bursts evs <= 1)%nat.
Proof.
  unfold tx_process. intros H.
  match type of H with context [tx_loop ?d ?c ?o ?i ?r ?s] =>
    destruct (tx_loop d c o i r s) as [st|] eqn:Hl end; [|discriminate].
  cbn in H. apply tx_loop_no_burst in Hl. cbn in Hl.
  case_bool_decide.
  - destruct (flush rte_eth_tx_burst ctx objs (length objs) st) as [st'|] eqn:Hf; [|discriminate].
    cbn in H. simplify_eq. apply flush_one_burst in Hf. lia.
  - cbn in H. simplify_eq. lia.
Qed.

(** Events are only added. *)
Lemma tx_step_trace ctx objs i mbuf st st' :
  tx_step rte_eth_tx_burst ctx objs i mbuf st = Some st' ->
  trace st' = trace st ++
    (if tx_mbuf_priv mbuf is None then [NodeEnqueue NO_PORT [mbuf]] else []).
Proof.
  unfold tx_step. intros H.
  destruct (tx_mbuf_priv mbuf) as [prt|].
  - rewrite app_nil_r. case_bool_decide as Hp; [|now simplify_eq].
    cbn [burst_start] in H.
    rewrite bool_decide_eq_false_2 in H by (intros Hne; now apply Hne).
    now simplify_option_eq.
  - now simplify_eq.
Qed.

Lemma tx_loop_no_port ctx objs rest : forall i st st',
  tx_loop rte_eth_tx_burst ctx objs i rest st = Some st' ->
  (forall e, e ∈ trace st -> e ∈ trace st')
  /\ (forall m, m ∈ rest -> tx_mbuf_priv m = None -> NodeEnqueue NO_PORT [m] ∈ trace st').
Proof.
  induction rest as [|mbuf rest IH]; intros i st st' H; cbn in H.
  - simplify_eq. split; [auto|]. intros m Hm. now apply elem_of_nil in Hm.
  - destruct (tx_step rte_eth_tx_burst ctx objs i mbuf st) as [st1|] eqn:Hs; [|discriminate].
    cbn in H. destruct (IH _ _ _ H) as [Hmono Hrest].
    apply tx_step_trace in Hs. split.
    + intros e He. apply Hmono. rewrite Hs. apply elem_of_app. now left.
    + intros m Hm Hnone. apply elem_of_cons in Hm as [-> | Hm]; [|now apply Hrest].
      apply Hmono. rewrite Hs, Hnone. apply elem_of_app. right. apply list_elem_of_here.
Qed.

(** X2: the part of the description that holds: when [tx_process] returns,
    every packet of the burst without TX metadata was enqueued on [NO_PORT]. *)
Lemma tx_process_no_port ctx objs c evs m :
  tx_process rte_eth_tx_burst ctx objs = Some (c, evs) ->
  m ∈ objs -> tx_mbuf_priv m = None ->
  NodeEnqueue NO_PORT [m] ∈ evs.
Proof.
  unfold tx_process. intros H Hm Hnone.
  match type of H with context [tx_loop ?d ?c ?o ?i ?r ?s] =>
    destruct (tx_loop d c o i r s) as [st|] eqn:Hl end; [|discriminate].
  cbn in H. apply tx_loop_no_port in Hl as [_ Hl]. specialize (Hl m Hm Hnone).
  case_bool_decide.
  - unfold flush in H.
    destruct (tx_burst _ _ _ _) as [[tx_ok evs']|]; [|discriminate].
    cbn in H. simplify_eq. apply elem_of_app. now left.
  - cbn in H. now simplify_eq.
Qed.

End TxProperties.

Section TxScenario.
Import Tx.

(** C2 (the code departs from it): a burst of two packets for ports 0 and 1
    has two maximal runs, yet [tx_process] makes a single driver call, for
    port 1 with the second packet only, and returns 1; the packet for port 0
    is neither offered to the driver nor enqueued to an edge. *)
Theorem tx_process_drops_earlier_run :
  let m0 := {| mbuf_id := 0; tx_mbuf_priv := Some 0 |} in
  let m1 := {| mbuf_id := 1; tx_mbuf_priv := Some 1 |} in
  let ctx := {| txq_ids := [5; 7] |} in
  runs [m0; m1] = [(0, [m0]); (1, [m1])]
  /\ tx_process accept_all ctx [m0; m1] = Some (1, [EthTxBurst 1 7 [m1]]).
Proof. split; reflexivity. Qed.

End TxScenario.

(** ** What the eth_tx node sends *)
Section TxSends.
Import Tx.

Variable rte_eth_tx_burst : Z -> Z -> list rte_mbuf -> nat.

Lemma no_port_events_cons m objs :
  no_port_events (m :: objs) =
    (if tx_mbuf_priv m is None then [NodeEnqueue NO_PORT [m]] else []) ++ no_port_events objs.
Proof.
  unfold no_port_events. rewrite filter_cons.
  destruct (tx_mbuf_priv m) eqn:Hm; destruct (decide _); try congruence; reflexivity.
Qed.

Lemma no_port_events_app l1 l2 :
  no_port_events (l1 ++ l2) = no_port_events l1 ++ no_port_events l2.
Proof. unfold no_port_events. now rewrite filter_app, fmap_app. Qed.

Lemma elem_of_no_port_events e objs :
  e ∈ no_port_events objs <->
  exists m, e = NodeEnqueue NO_PORT [m] /\ m ∈ objs /\ tx_mbuf_priv m = None.
Proof.
  unfold no_port_events. rewrite list_elem_of_fmap.
  split; intros (m & -> & Hm); exists m.
  - apply list_elem_of_filter in Hm as [Hn Hin]. auto.
  - split; [reflexivity|]. apply list_elem_of_filter. tauto.
Qed.

Lemma n_tx_bursts_app l1 l2 : n_tx_bursts (l1 ++ l2) = (n_tx_bursts l1 + n_tx_bursts l2)%nat.
Proof. unfold n_tx_bursts. now rewrite filter_app, length_app. Qed.

Lemma n_tx_bursts_no_port objs : n_tx_bursts (no_port_events objs) = 0%nat.
Proof.
  induction objs as [|m objs IH]; [reflexivity|].
  rewrite no_port_events_cons, n_tx_bursts_app, IH. now destruct (tx_mbuf_priv m).
Qed.

(** The loop never fails and never sends: it tracks the port and the start
    of the last run and enqueues the packets without metadata. *)
Lemma tx_loop_scan ctx objs rest : forall i st,
  tx_loop rte_eth_tx_burst ctx objs i rest st =
    Some {| port_id := (scan (port_id st) (burst_start st) i rest).1;
            burst_start := (scan (port_id st) (burst_start st) i rest).2;
            count := count st;
            trace := trace st ++ no_port_events rest |}.
Proof.
  induction rest as [|m rest IH]; intros i [port start c tr]; cbn [tx_loop].
  - cbn. now rewrite app_nil_r.
  - unfold tx_step. rewrite no_port_events_cons. cbn [scan port_id burst_start count trace].
    destruct (tx_mbuf_priv m) as [p|].
    + case_bool_decide as Hp.
      * rewrite bool_decide_eq_false_2 by (intros Hne; now apply Hne).
        cbn. rewrite IH. reflexivity.
      * cbn. rewrite IH. reflexivity.
    + cbn. rewrite IH. cbn. now rewrite <- app_assoc.
Qed.

Lemma scan_fst rest : forall port start i,
  (scan port start i rest).1 = last_port port rest.
Proof.
  unfold last_port. induction rest as [|m rest IH]; intros port start i; [reflexivity|].
  cbn. destruct (tx_mbuf_priv m) as [p|]; cbn; [|apply IH].
  case_bool_decide as Hp; [apply IH|].
  assert (p = port) as -> by (destruct (decide (p = port)); [assumption|contradiction]).
  apply IH.
Qed.

(** [burst_start] stays what it was or becomes an index of the part scanned. *)
Lemma scan_snd_range rest : forall port start i,
  (scan port start i rest).2 = start
  \/ (i <= (scan port start i rest).2 < i + length rest)%nat.
Proof.
  induction rest as [|m rest IH]; intros port start i; [now left|].
  cbn [scan length].
  destruct (tx_mbuf_priv m) as [p|].
  - case_bool_decide.
    + right. destruct (IH p i (S i)) as [-> | ?]; lia.
    + destruct (IH port start (S i)) as [-> | ?]; [now left|right; lia].
  - destruct (IH port start (S i)) as [-> | ?]; [now left|right; lia].
Qed.

Lemma scan_app l1 l2 : forall port start i,
  scan port start i (l1 ++ l2) =
    scan (scan port start i l1).1 (scan port start i l1).2 (i + length l1) l2.
Proof.
  induction l1 as [|m l1 IH]; intros port start i; cbn [scan app length].
  - now rewrite Nat.add_0_r.
  - replace (i + S (length l1))%nat with (S i + length l1)%nat by lia.
    destruct (tx_mbuf_priv m) as [p|]; [case_bool_decide|]; apply IH.
Qed.

Lemma scan_same rest : forall port start i,
  Forall (λ x, tx_mbuf_priv x = None \/ tx_mbuf_priv x = Some port) rest ->
  scan port start i rest = (port, start).
Proof.
  induction rest as [|m rest IH]; intros port start i Hall; [reflexivity|].
  apply Forall_cons in Hall as [[Hm | Hm] Hall]; cbn; rewrite Hm; [now apply IH|].
  rewrite bool_decide_eq_false_2 by (intros Hne; now apply Hne). now apply IH.
Qed.

(** [tx_process] in closed form: the [NO_PORT] enqueues, then for a burst
    that is not empty one [tx_burst], for the port of the last packet with
    metadata and the packets from the last change of port on. *)
Lemma tx_process_eq ctx objs :
  tx_process rte_eth_tx_burst ctx objs =
    let port := last_port UINT16_MAX objs in
    let start := (scan UINT16_MAX 0 0 objs).2 in
    if bool_decide (objs ≠ []) then
      '(tx_ok, evs) ← tx_burst rte_eth_tx_burst ctx port (drop start objs);
      Some (u16 (Z.of_nat tx_ok), no_port_events objs ++ evs)
    else Some (0, []).
Proof.
  unfold tx_process. rewrite tx_loop_scan. cbn -[scan].
  rewrite scan_fst.
  destruct objs as [|m objs'] eqn:Hobjs; [reflexivity|]. rewrite <- Hobjs.
  assert (Hlt : ((scan UINT16_MAX 0 0 objs).2 < length objs)%nat).
  { destruct (scan_snd_range objs UINT16_MAX 0 0) as [-> | ?]; [|lia]. subst. cbn. lia. }
  rewrite bool_decide_eq_true_2 by lia.
  rewrite (bool_decide_eq_true_2 (objs ≠ [])) by (subst; discriminate).
  unfold flush, slice. cbn [port_id burst_start count trace].
  rewrite take_ge by (rewrite length_drop; lia).
  destruct (tx_burst _ _ _ _) as [[tx_ok evs]|]; reflexivity.
Qed.

(** X1: a call of [tx_process] that returns has called the driver exactly
    once when the burst holds a packet, and not at all when it is empty. *)
Theorem tx_process_burst_count ctx objs c evs :
  tx_process rte_eth_tx_burst ctx objs = Some (c, evs) ->
  n_tx_bursts evs = if objs is [] then 0%nat else 1%nat.
Proof.
  rewrite tx_process_eq. cbv zeta.
  destruct objs as [|m objs'].
  { rewrite bool_decide_eq_false_2 by (intros Hne; now apply Hne). intros; now simplify_eq. }
  rewrite bool_decide_eq_true_2 by discriminate.
  unfold tx_burst. intros H.
  destruct (txq_ids ctx !! _) as [txq|]; [|discriminate].
  cbn -[no_port_events drop scan] in H. injection H as _ <-.
  rewrite n_tx_bursts_app, n_tx_bursts_no_port. unfold n_tx_bursts.
  rewrite filter_cons_True by exact I.
  match goal with |- context [if ?b then _ else _] => destruct b end; reflexivity.
Qed.

(** The loop leaves [burst_start] at the last change of port. *)
Lemma scan_tail pre m post p :
  tx_mbuf_priv m = Some p ->
  last_port UINT16_MAX pre ≠ p ->
  Forall (λ x, tx_mbuf_priv x = None \/ tx_mbuf_priv x = Some p) post ->
  last_port UINT16_MAX (pre ++ m :: post) = p
  /\ (scan UINT16_MAX 0 0 (pre ++ m :: post)).2 = length pre.
Proof.
  intros Hm Hpre Hpost.
  assert (Hscan : scan UINT16_MAX 0 0 (pre ++ m :: post) = (p, length pre)).
  { rewrite scan_app, scan_fst. cbn [scan]. rewrite Hm.
    rewrite bool_decide_eq_true_2 by congruence. now apply scan_same. }
  rewrite <- (scan_fst _ UINT16_MAX 0%nat 0%nat), Hscan. split; reflexivity.
Qed.

(** X3: when the burst is [pre ++ m :: post], [m] carries port [p], the
    port in force after [pre] is another one and no packet of [post] carries
    another port than [p], then [tx_process] offers the driver exactly
    [m :: post] on port [p] with the TX queue of [p], returns what the
    driver accepted, enqueues the rest of [m :: post] on [TX_ERROR] and the
    packets without metadata of the whole burst on [NO_PORT]. *)
Theorem tx_process_sends_tail ctx pre m post p txq :
  tx_mbuf_priv m = Some p ->
  last_port UINT16_MAX pre ≠ p ->
  Forall (λ x, tx_mbuf_priv x = None \/ tx_mbuf_priv x = Some p) post ->
  txq_ids ctx !! Z.to_nat p = Some txq ->
  let tx_ok := rte_eth_tx_burst p txq (m :: post) in
  tx_process rte_eth_tx_burst ctx (pre ++ m :: post) =
    Some (u16 (Z.of_nat tx_ok),
          no_port_events (pre ++ m :: post)
          ++ EthTxBurst p txq (m :: post)
             :: (if (tx_ok <? length (m :: post))%nat
                 then [NodeEnqueue TX_ERROR (drop tx_ok (m :: post))] else [])).
Proof.
  intros Hm Hpre Hpost Htxq tx_ok.
  destruct (scan_tail pre m post p Hm Hpre Hpost) as [Hport Hstart].
  rewrite tx_process_eq. cbv zeta.
  rewrite bool_decide_eq_true_2 by (destruct pre; discriminate).
  rewrite Hport, Hstart, drop_app_length. unfold tx_burst. rewrite Htxq. reflexivity.
Qed.

(** X4: when the burst is [pre ++ m :: post], [m] carries port [p], the
    port in force after [pre] is another one and no packet of [post] carries
    another port than [p], a packet of [pre] with TX metadata that is not in
    [m :: post] appears in no event: it is neither offered to the driver nor
    enqueued on an edge. *)
Theorem tx_process_drops_earlier_runs ctx pre m post p txq x c evs :
  tx_mbuf_priv m = Some p ->
  last_port UINT16_MAX pre ≠ p ->
  Forall (λ y, tx_mbuf_priv y = None \/ tx_mbuf_priv y = Some p) post ->
  txq_ids ctx !! Z.to_nat p = Some txq ->
  x ∈ pre -> tx_mbuf_priv x ≠ None -> x ∉ m :: post ->
  tx_process rte_eth_tx_burst ctx (pre ++ m :: post) = Some (c, evs) ->
  forall e, e ∈ evs -> x ∉ event_mbufs e.
Proof.
  intros Hm Hpre Hpost Htxq Hx Hpriv Hnot H e He.
  destruct (scan_tail pre m post p Hm Hpre Hpost) as [Hport Hstart].
  rewrite tx_process_eq in H. cbv zeta in H.
  rewrite bool_decide_eq_true_2 in H by (destruct pre; discriminate).
  rewrite Hport, Hstart, drop_app_length in H. unfold tx_burst in H. rewrite Htxq in H.
  cbn -[no_port_events drop] in H. injection H as _ <-.
  apply elem_of_app in He as [He | He].
  - apply elem_of_no_port_events in He as (y & -> & _ & Hy). cbn.
    intros Hin. apply list_elem_of_singleton in Hin. congruence.
  - apply elem_of_cons in He as [-> | He]; [exact Hnot|].
    match type of He with context [if ?b then _ else _] => destruct b end;
      [|now apply elem_of_nil in He].
    apply list_elem_of_singleton in He as ->. cbn [event_mbufs].
    intros Hin. apply Hnot.
    exact (subseteq_drop (rte_eth_tx_burst p txq (m :: post)) (m :: post) x Hin).
Qed.

(** X5: a burst that is not empty and in which no packet has TX metadata
    makes [tx_process] call [tx_burst] with [port_id] still [UINT16_MAX]:
    with a [txq_ids] array of at most 65535 entries the read
    [ctx->txq_ids[port_id]] is outside the array. *)
Theorem tx_process_no_metadata_reads_outside ctx objs :
  objs ≠ [] ->
  Forall (λ x, tx_mbuf_priv x = None) objs ->
  Z.of_nat (length (txq_ids ctx)) <= UINT16_MAX ->
  last_port UINT16_MAX objs = UINT16_MAX
  /\ txq_ids ctx !! Z.to_nat UINT16_MAX = None
  /\ tx_process rte_eth_tx_burst ctx objs = None.
Proof.
  intros Hne Hall Hlen.
  assert (Hport : last_port UINT16_MAX objs = UINT16_MAX).
  { rewrite <- (scan_fst _ _ 0%nat 0%nat), scan_same; [reflexivity|].
    eapply Forall_impl; [exact Hall|]. cbn. auto. }
  assert (Hout : txq_ids ctx !! Z.to_nat UINT16_MAX = None).
  { apply lookup_ge_None. unfold UINT16_MAX in *. lia. }
  split; [assumption|]. split; [assumption|].
  rewrite tx_process_eq. cbv zeta. rewrite bool_decide_eq_true_2 by assumption.
  rewrite Hport. unfold tx_burst. now rewrite Hout.
Qed.

(** X6: when the last packet of a burst has no TX metadata and the call
    returns, that packet is enqueued on [NO_PORT] and is also among the
    packets offered to the driver. *)
Theorem tx_process_no_port_also_sent ctx pre m c evs :
  tx_mbuf_priv m = None ->
  tx_process rte_eth_tx_burst ctx (pre ++ [m]) = Some (c, evs) ->
  NodeEnqueue NO_PORT [m] ∈ evs
  /\ exists port txq ms, EthTxBurst port txq ms ∈ evs /\ m ∈ ms.
Proof.
  intros Hm. rewrite tx_process_eq. cbv zeta.
  rewrite bool_decide_eq_true_2 by (destruct pre; discriminate).
  unfold tx_burst. intros H.
  destruct (txq_ids ctx !! _) as [txq|]; [|discriminate].
  cbn -[no_port_events drop scan] in H. injection H as _ <-.
  split.
  - apply elem_of_app. left. apply elem_of_no_port_events. exists m.
    split; [reflexivity|]. split; [|assumption]. apply elem_of_app. right. apply list_elem_of_here.
  - eexists _, _, _. split; [apply elem_of_app; right; apply list_elem_of_here|].
    destruct (scan_snd_range (pre ++ [m]) UINT16_MAX 0 0) as [-> | Hr].
    + rewrite drop_0. apply elem_of_app. right. apply list_elem_of_here.
    + rewrite length_app in Hr. cbn in Hr.
      rewrite drop_app_le by lia. apply elem_of_app. right. apply list_elem_of_here.
Qed.

End TxSends.

(** ** The start-up of the eth_tx node *)
Section TxInit.
Import Tx.

Lemma n_registers_app l1 l2 : n_registers (l1 ++ l2) = (n_registers l1 + n_registers l2)%nat.
Proof. unfold n_registers. now rewrite filter_app, length_app. Qed.

(** After a call, [once] is set; with [once] set, a call neither registers
    nor touches the offset. *)
Lemma tx_init_once g a :
  once (tx_init g a).1.1.2 = true
  /\ (once g = true ->
      (tx_init g a).1.1.2 = g /\ n_registers (tx_init g a).2 = 0%nat)
  /\ (once g = false ->
      (tx_init g a).1.1.2 = {| once := true; tx_mbuf_priv_offset := register_ret a |}
      /\ n_registers (tx_init g a).2 = 1%nat).
Proof.
  unfold tx_init. destruct g as [[] off]; cbn [once negb].
  - split; [|split; [intros _|discriminate]];
      destruct (_ <? 0); try destruct (node_data a); try destruct (malloc_ok a); cbn; auto.
  - split; [|split; [discriminate|intros _]];
      destruct (_ <? 0); try destruct (node_data a); try destruct (malloc_ok a); cbn; auto.
Qed.

Lemma tx_init_all_once calls : forall g,
  once g = true ->
  (tx_init_all g calls).1.2 = g /\ n_registers (tx_init_all g calls).2 = 0%nat.
Proof.
  induction calls as [|a calls IH]; intros g Hg; [split; reflexivity|].
  cbn [tx_init_all].
  destruct (tx_init_once g a) as (_ & Hset & _). destruct (Hset Hg) as [Hg1 Hn1].
  destruct (tx_init g a) as [[[ret g1] ctx] evs]. cbn [fst snd] in Hg1, Hn1. subst g1.
  destruct (IH g Hg) as [Hg2 Hn2].
  destruct (tx_init_all g calls) as [[rets g2] evs']. cbn [fst snd] in *.
  split; [assumption|]. rewrite n_registers_app. lia.
Qed.

(** X7: however many nodes are initialised, and whatever the answers,
    [rte_mbuf_dynfield_register] is called once, by the first [tx_init]. *)
Theorem tx_init_registers_once (calls : list init_answers) :
  n_registers (tx_init_all tx_globals_init calls).2
  = if calls is [] then 0%nat else 1%nat.
Proof.
  destruct calls as [|a calls]; [reflexivity|]. cbn [tx_init_all].
  destruct (tx_init_once tx_globals_init a) as (Hon & _ & Hfirst).
  destruct (Hfirst eq_refl) as [Hg1 Hn1].
  destruct (tx_init tx_globals_init a) as [[[ret g1] ctx] evs]. cbn [fst snd] in Hon, Hg1, Hn1.
  destruct (tx_init_all_once calls g1 Hon) as [_ Hn2].
  destruct (tx_init_all g1 calls) as [[rets g2] evs']. cbn [fst snd] in *.
  rewrite n_registers_app. lia.
Qed.

Lemma tx_init_all_failed calls : forall g,
  once g = true -> tx_mbuf_priv_offset g < 0 ->
  tx_init_all g calls = (replicate (length calls) (-1), g, []).
Proof.
  induction calls as [|a calls IH]; intros g Hon Hoff; [reflexivity|].
  cbn [tx_init_all]. unfold tx_init. rewrite Hon. cbn [negb].
  rewrite (proj2 (Z.ltb_lt _ _) Hoff). rewrite (IH g Hon Hoff). reflexivity.
Qed.

(** X8: when the registration of the dynamic field fails in the first
    [tx_init], that call and every later one return -1: the registration is
    not tried again, no node data is looked up and nothing is allocated. *)
Theorem tx_init_failure_sticks (a : init_answers) (calls : list init_answers) :
  register_ret a < 0 ->
  tx_init_all tx_globals_init (a :: calls)
  = (replicate (S (length calls)) (-1),
     {| once := true; tx_mbuf_priv_offset := register_ret a |},
     [DynfieldRegister]).
Proof.
  intros Hneg. cbn [tx_init_all]. unfold tx_init at 1. cbn [once tx_globals_init negb].
  cbn [tx_mbuf_priv_offset]. rewrite (proj2 (Z.ltb_lt _ _) Hneg).
  rewrite tx_init_all_failed by (cbn; auto). reflexivity.
Qed.

(** A [tx_init] that returns 0 has stored in the node a context whose
    [txq_ids] are those of the node data, and the offset of the dynamic field
    is not negative; a [tx_init] that does not return 0 returns -1 and leaves
    the node as it is. *)
Theorem tx_init_result (g : tx_globals) (a : init_answers) :
  let '(ret, g', ctx, _) := tx_init g a in
  (ret = 0 /\ 0 <= tx_mbuf_priv_offset g'
   /\ exists ids, node_data a = Some ids /\ ctx = Some {| txq_ids := ids |})
  \/ (ret = -1 /\ ctx = None).
Proof.
  unfold tx_init.
  destruct (negb (once g)); cbn;
    (destruct (_ <? 0) eqn:Hoff; [right; auto|]; apply Z.ltb_ge in Hoff;
     destruct (node_data a) as [ids|]; [|right; auto];
     destruct (malloc_ok a); [left; eauto|right; auto]).
Qed.

End TxInit.

(** ** The eth_tx node on sample bursts *)
Section TxRuns.
Import Tx.

Let m0 : rte_mbuf := {| mbuf_id := 0; tx_mbuf_priv := Some 0 |}.
Let m1 : rte_mbuf := {| mbuf_id := 1; tx_mbuf_priv := Some 1 |}.
Let m2 : rte_mbuf := {| mbuf_id := 2; tx_mbuf_priv := None |}.
Let ctx : tx_ctx := {| txq_ids := [5; 7] |}.

Lemma tx_process_no_port_witness :
  NodeEnqueue NO_PORT [m2] ∈ [NodeEnqueue NO_PORT [m2]; EthTxBurst 1 7 [m1; m2]].
Proof.
  apply (tx_process_no_port accept_all ctx [m0; m1; m2] 2); [reflexivity| |reflexivity].
  apply list_elem_of_further, list_elem_of_further, list_elem_of_here.
Defined.

Lemma tx_process_burst_count_witness :
  n_tx_bursts [NodeEnqueue NO_PORT [m2]; EthTxBurst 1 7 [m1; m2]] = 1%nat.
Proof.
  apply (tx_process_burst_count accept_all ctx [m0; m1; m2] 2). reflexivity.
Defined.

Lemma tx_process_sends_tail_witness :
  tx_process accept_all ctx [m0; m2; m1; m2]
  = Some (2, [NodeEnqueue NO_PORT [m2]; NodeEnqueue NO_PORT [m2]; EthTxBurst 1 7 [m1; m2]]).
Proof.
  apply (tx_process_sends_tail accept_all ctx [m0; m2] m1 [m2] 1 7).
  - reflexivity.
  - discriminate.
  - repeat constructor.
  - reflexivity.
Defined.

Lemma tx_process_drops_earlier_runs_witness :
  Forall (λ e, m0 ∉ event_mbufs e)
    [NodeEnqueue NO_PORT [m2]; NodeEnqueue NO_PORT [m2]; EthTxBurst 1 7 [m1; m2]].
Proof.
  apply Forall_forall.
  apply (tx_process_drops_earlier_runs accept_all ctx [m0; m2] m1 [m2] 1 7 m0 2).
  - reflexivity.
  - discriminate.
  - repeat constructor.
  - reflexivity.
  - apply list_elem_of_here.
  - discriminate.
  - intros Hin. repeat (apply elem_of_cons in Hin as [Hin | Hin]; [discriminate Hin|]).
    now apply elem_of_nil in Hin.
  - reflexivity.
Defined.

Lemma tx_process_no_metadata_reads_outside_witness :
  tx_process accept_all ctx [m2; m2] = None.
Proof.
  apply (tx_process_no_metadata_reads_outside accept_all ctx [m2; m2]).
  - discriminate.
  - repeat constructor.
  - cbn. unfold UINT16_MAX. lia.
Defined.

Lemma tx_process_no_port_also_sent_witness :
  NodeEnqueue NO_PORT [m2] ∈ [NodeEnqueue NO_PORT [m2]; EthTxBurst 1 7 [m1; m2]]
  /\ exists port txq ms,
       EthTxBurst port txq ms ∈ [NodeEnqueue NO_PORT [m2]; EthTxBurst 1 7 [m1; m2]]
       /\ m2 ∈ ms.
Proof.
  apply (tx_process_no_port_also_sent accept_all ctx [m0; m1] m2 2); reflexivity.
Defined.

Lemma tx_init_failure_sticks_witness :
  tx_init_all tx_globals_init
    [ {| register_ret := -1; node_data := Some [0; 1]; malloc_ok := true |};
      {| register_ret := 3; node_data := Some [0; 1]; malloc_ok := true |} ]
  = ([-1; -1], {| once := true; tx_mbuf_priv_offset := -1 |}, [DynfieldRegister]).
Proof.
  apply (tx_init_failure_sticks
           {| register_ret := -1; node_data := Some [0; 1]; malloc_ok := true |}
           [ {| register_ret := 3; node_data := Some [0; 1]; malloc_ok := true |} ]).
  reflexivity.
Defined.

End TxRuns.

(** ** Properties of the ip6_output node *)
Section Ip6Properties.
Import Ip6Output.
Context {E : Externals}.

(** *** The hold queue as a linked list *)

Lemma held_chain_nil_inv ms h : held_chain ms h [] -> h = None.
Proof. now inversion 1. Qed.

Lemma held_chain_cons_inv ms h p l :
  held_chain ms h (p :: l) ->
  h = Some p /\ exists mb, ms !! p = Some mb /\ held_chain ms (next mb) l.
Proof. inversion 1; subst. eauto. Qed.

(** The last packet of a queue has no successor. *)
Lemma held_chain_last ms h l t :
  held_chain ms h l -> last l = Some t ->
  exists tmb, ms !! t = Some tmb /\ next tmb = None.
Proof.
  induction 1 as [|p mb l Hp Hc IH]; intros Hl; [discriminate|].
  destruct l as [|p' l'].
  - cbn in Hl. simplify_eq. apply held_chain_nil_inv in Hc. eauto.
  - apply IH. exact Hl.
Qed.

(** Linking a packet that is not in the queue behind the tail appends it. *)
Lemma held_chain_snoc ms h l t tmb m mb :
  held_chain ms h l -> last l = Some t -> ms !! t = Some tmb -> m ∉ l ->
  held_chain (<[t := set_next tmb (Some m)]> (<[m := set_next mb None]> ms)) h (l ++ [m]).
Proof.
  intros Hc Hl Ht Hm. induction Hc as [|p pmb l Hp Hc IH]; [discriminate|].
  apply not_elem_of_cons in Hm as [Hmp Hml].
  destruct l as [|p' l'].
  - cbn in Hl. simplify_eq. apply held_chain_nil_inv in Hc.
    cbn. econstructor; [apply lookup_insert_eq|]. cbn.
    econstructor.
    + rewrite lookup_insert_ne by congruence. apply lookup_insert_eq.
    + cbn. constructor.
  - assert (Hl' : last (p' :: l') = Some t) by exact Hl.
    destruct (held_chain_last _ _ _ _ Hc Hl') as (tmb' & Ht' & Hnone).
    assert (p ≠ t).
    { intros ->. simplify_eq. apply held_chain_cons_inv in Hc as [Hn _]. congruence. }
    cbn. econstructor.
    + rewrite !lookup_insert_ne by congruence. exact Hp.
    + apply IH; assumption.
Qed.

(** [hold_enqueue] appends [m] to a well-formed queue that does not hold it. *)
Lemma hold_enqueue_appends ms n l m mb :
  held_queue ms n l -> m ∉ l ->
  exists ms' n',
    hold_enqueue (<[m := set_next mb None]> ms) n m = Some (ms', n')
    /\ held_queue ms' n' (l ++ [m])
    /\ held_pkts_num n' = held_pkts_num n + 1
    /\ flags n' = flags n.
Proof.
  intros [Hc Ht] Hm. unfold hold_enqueue.
  destruct l as [|p l].
  - apply held_chain_nil_inv in Hc. rewrite Hc.
    eexists _, _. split; [reflexivity|]. split; [|split; reflexivity].
    split; cbn.
    + econstructor; [apply lookup_insert_eq|]. cbn. constructor.
    + reflexivity.
  - specialize (Ht ltac:(discriminate)).
    destruct (last (p :: l)) as [t|] eqn:Hl.
    2:{ apply last_None in Hl. discriminate. }
    destruct (held_chain_last _ _ _ _ Hc Hl) as (tmb & Htl & _).
    assert (t ∈ p :: l) by (apply last_Some_elem_of; exact Hl).
    assert (t ≠ m) by (intros ->; contradiction).
    pose proof (held_chain_cons_inv _ _ _ _ Hc) as [Hh _].
    rewrite Hh, Ht. cbn. rewrite lookup_insert_ne by congruence. rewrite Htl. cbn.
    eexists _, _. split; [reflexivity|]. split; [|split; reflexivity].
    split; cbn.
    + rewrite <- Hh. apply (held_chain_snoc ms _ (p :: l) t tmb m mb); assumption.
    + intros _. change (p :: l ++ [m]) with ((p :: l) ++ [m]). now rewrite last_snoc.
Qed.

(** Whatever the queue looks like, a successful [hold_enqueue] counts one
    more packet and leaves the flags alone. *)
Lemma hold_enqueue_num ms n m ms' n' :
  hold_enqueue ms n m = Some (ms', n') ->
  held_pkts_num n' = held_pkts_num n + 1 /\ flags n' = flags n.
Proof.
  unfold hold_enqueue. intros H.
  destruct (held_pkts_head n); simplify_option_eq; split; reflexivity.
Qed.

(** *** The loop body, step by step *)

Lemma maybe_hold_packet_eq s nh_p mbuf n mb :
  nexthops s !! nh_p = Some n -> mbufs s !! mbuf = Some mb ->
  maybe_hold_packet s nh_p mbuf =
    if has_flag n GR_IP6_NH_F_REACHABLE || rte_ipv6_addr_is_mcast (dst_addr mb) then
      Some (OK_TO_SEND, s)
    else if held_pkts_num n <? IP6_NH_MAX_HELD_PKTS then
      '(ms, n1) ← hold_enqueue (<[mbuf := set_next mb None]> (mbufs s)) n mbuf;
      let s1 := set_mbufs s ms in
      if negb (has_flag n1 GR_IP6_NH_F_PENDING) then
        let s2 := emit s1 (NexthopSolicit nh_p) in
        Some (HELD, set_nexthops s2
                      (<[nh_p := set_flags n1 (Z.lor (flags n1) GR_IP6_NH_F_PENDING)]>
                         (nexthops s2)))
      else Some (HELD, set_nexthops s1 (<[nh_p := n1]> (nexthops s1)))
    else Some (HOLD_QUEUE_FULL, s).
Proof. intros Hn Hm. unfold maybe_hold_packet. rewrite Hn, Hm. reflexivity. Qed.

(** A packet that goes on after lines 91 to 105 has a next hop, that next
    hop's interface exists and the interface type has no tunnel edge. *)
Lemma select_edge_inr edges s mbuf nh0 ifc :
  select_edge edges s mbuf = Some (inr (nh0, ifc)) ->
  exists mb0 n0,
    mbufs s !! mbuf = Some mb0 /\ nh mb0 = Some nh0 /\ nexthops s !! nh0 = Some n0
    /\ iface_from_id (iface_id n0) = Some ifc /\ edges !! type_id ifc = Some ETH_OUTPUT.
Proof.
  unfold select_edge. intros H.
  destruct (mbufs s !! mbuf) as [mb0|] eqn:Hm; [|discriminate]. cbn in H.
  destruct (nh mb0) as [p|] eqn:Hnh; [|discriminate].
  destruct (nexthops s !! p) as [n0|] eqn:Hn; [|discriminate]. cbn in H.
  destruct (iface_from_id (iface_id n0)) as [i|] eqn:Hi; [|discriminate].
  destruct (edges !! type_id i) as [e|] eqn:He; [|discriminate]. cbn in H.
  case_bool_decide as Hne; [discriminate|]. simplify_eq.
  exists mb0, n0. repeat split; try assumption.
Qed.

(** From the hold-queue step on, the loop body is the [switch] on
    [maybe_hold_packet] followed by lines 143 to 153. *)
Lemma ip6_output_pkt_at_hold edges s0 sent mbuf s nh_p ifc :
  reaches_hold edges s0 mbuf s nh_p ifc ->
  ip6_output_pkt edges s0 sent mbuf =
    '(status, s2) ← maybe_hold_packet s nh_p mbuf;
    match status with
    | HELD => Some (s2, sent)
    | HOLD_QUEUE_FULL => Some (enqueue s2 QUEUE_FULL mbuf, sent)
    | OK_TO_SEND => s3 ← prepare_eth s2 ETH_OUTPUT nh_p ifc mbuf; Some (s3, u16 (sent + 1))
    end.
Proof.
  intros (nh0 & Hsel & Hpro). unfold ip6_output_pkt. rewrite Hsel. cbn.
  rewrite Hpro. reflexivity.
Qed.

(** The promotion, when its condition holds: the two control-plane calls in
    order, and the mbuf's [nh] written last. *)
Lemma promote_taken s nh_p mbuf n mb :
  nexthops s !! nh_p = Some n -> mbufs s !! mbuf = Some mb ->
  has_flag n GR_IP6_NH_F_LINK = true ->
  rte_ipv6_addr_is_mcast (dst_addr mb) = false ->
  dst_addr mb ≠ ip n ->
  promote s nh_p mbuf =
    let new := ip6_nexthop_new (nexthops s) (vrf_id n) (iface_id n) (dst_addr mb) in
    let s1 := emit (set_nexthops s new.2)
                (NexthopNew (vrf_id n) (iface_id n) (dst_addr mb) new.1) in
    match new.1 with
    | None => Some (s1, inl ERROR)
    | Some r =>
        let ins := ip6_route_insert (fib s) (vrf_id n) (dst_addr mb) RTE_IPV6_MAX_DEPTH r in
        let s2 := emit (set_fib s1 ins.2)
                    (RouteInsert (vrf_id n) (dst_addr mb) RTE_IPV6_MAX_DEPTH r ins.1) in
        if ins.1 <? 0 then Some (s2, inl ERROR)
        else Some (set_mbufs s2 (<[mbuf := set_nh mb (Some r)]> (mbufs s)), inr r)
    end.
Proof.
  intros Hn Hm Hl Hmc Hne. unfold promote. rewrite Hn, Hm. cbn.
  rewrite Hl, Hmc. unfold rte_ipv6_addr_eq. rewrite bool_decide_eq_false_2 by assumption.
  cbn.
  destruct (ip6_nexthop_new (nexthops s) (vrf_id n) (iface_id n) (dst_addr mb))
    as [[r|] nhs]; cbn; [|reflexivity].
  destruct (ip6_route_insert (fib s) (vrf_id n) (dst_addr mb) RTE_IPV6_MAX_DEPTH r)
    as [ret f]; cbn.
  destruct (ret <? 0); [reflexivity|]. rewrite Hm. reflexivity.
Qed.

(** *** The hold-queue discipline *)

(** C3: a packet [mbuf] that reaches the hold-queue step with next hop
    [nh_p].
    - If the next hop is REACHABLE or the destination is multicast,
      [maybe_hold_packet] answers [OK_TO_SEND] and changes nothing.
    - Otherwise, below the limit and for a hold queue that holds the packets
      [l] and not [mbuf], it answers [HELD]: the queue of the stored next hop
      becomes [l ++ [mbuf]], the count grows by one, and exactly when PENDING
      was not set the trace gets the call of [ip6_nexthop_solicit] and the
      stored flags get PENDING; the loop body ends with this state: the trace
      has no enqueue of the packet and [sent] is as before.
    - Otherwise it answers [HOLD_QUEUE_FULL] and the loop body adds to the
      trace one enqueue of the packet on QUEUE_FULL, with the stores, the
      route table and [sent] as before. *)
Theorem hold_queue_discipline edges s0 sent mbuf s nh_p ifc n mb :
  reaches_hold edges s0 mbuf s nh_p ifc ->
  nexthops s !! nh_p = Some n ->
  mbufs s !! mbuf = Some mb ->
  (has_flag n GR_IP6_NH_F_REACHABLE = true \/ rte_ipv6_addr_is_mcast (dst_addr mb) = true ->
     maybe_hold_packet s nh_p mbuf = Some (OK_TO_SEND, s))
  /\ (has_flag n GR_IP6_NH_F_REACHABLE = false ->
      rte_ipv6_addr_is_mcast (dst_addr mb) = false ->
      held_pkts_num n < IP6_NH_MAX_HELD_PKTS ->
      forall l, held_queue (mbufs s) n l -> mbuf ∉ l ->
      exists s' n',
        maybe_hold_packet s nh_p mbuf = Some (HELD, s')
        /\ nexthops s' = <[nh_p := n']> (nexthops s)
        /\ held_queue (mbufs s') n' (l ++ [mbuf])
        /\ held_pkts_num n' = held_pkts_num n + 1
        /\ flags n' = (if has_flag n GR_IP6_NH_F_PENDING then flags n
                       else Z.lor (flags n) GR_IP6_NH_F_PENDING)
        /\ trace s' = trace s ++ (if has_flag n GR_IP6_NH_F_PENDING then []
                                  else [NexthopSolicit nh_p])
        /\ fib s' = fib s
        /\ ip6_output_pkt edges s0 sent mbuf = Some (s', sent))
  /\ (has_flag n GR_IP6_NH_F_REACHABLE = false ->
      rte_ipv6_addr_is_mcast (dst_addr mb) = false ->
      IP6_NH_MAX_HELD_PKTS <= held_pkts_num n ->
      maybe_hold_packet s nh_p mbuf = Some (HOLD_QUEUE_FULL, s)
      /\ exists s',
           ip6_output_pkt edges s0 sent mbuf = Some (s', sent)
           /\ trace s' = trace s ++ [NodeEnqueue QUEUE_FULL mbuf]
           /\ nexthops s' = nexthops s /\ mbufs s' = mbufs s /\ fib s' = fib s).
Proof.
  intros Hr Hn Hm.
  pose proof (maybe_hold_packet_eq s nh_p mbuf n mb Hn Hm) as Heq.
  pose proof (ip6_output_pkt_at_hold edges s0 sent mbuf s nh_p ifc Hr) as Hpkt.
  split; [|split].
  - intros Hok. rewrite Heq.
    destruct Hok as [-> | ->]; [reflexivity|]. now rewrite orb_true_r.
  - intros Hre Hmc Hlt l Hq Hfresh.
    destruct (hold_enqueue_appends (mbufs s) n l mbuf mb Hq Hfresh)
      as (ms' & n1 & Henq & Hq' & Hnum & Hfl).
    rewrite Hre, Hmc in Heq. cbn [orb] in Heq.
    rewrite (proj2 (Z.ltb_lt _ _) Hlt), Henq in Heq. cbn in Heq.
    unfold has_flag in Heq at 1. rewrite Hfl in Heq. fold (has_flag n GR_IP6_NH_F_PENDING) in Heq.
    destruct (has_flag n GR_IP6_NH_F_PENDING) eqn:Hp; cbn in Heq.
    + eexists _, n1. split; [exact Heq|]. rewrite Hpkt, Heq. cbn.
      rewrite app_nil_r.
      repeat split; try assumption; try reflexivity; apply Hq'.
    + eexists _, (set_flags n1 (Z.lor (flags n) GR_IP6_NH_F_PENDING)).
      split; [exact Heq|]. rewrite Hpkt, Heq. cbn.
      repeat split; try assumption; try reflexivity; apply Hq'.
  - intros Hre Hmc Hge.
    rewrite Hre, Hmc in Heq. cbn [orb] in Heq.
    rewrite (proj2 (Z.ltb_ge _ _) Hge) in Heq.
    split; [exact Heq|]. rewrite Hpkt, Heq. cbn.
    eexists. split; [reflexivity|]. cbn. repeat split.
Qed.

(** [maybe_hold_packet] changes [held_pkts_num] in one place, behind the
    test against the limit. *)
Lemma maybe_hold_packet_keeps_bound s nh_p mbuf status s' :
  maybe_hold_packet s nh_p mbuf = Some (status, s') ->
  hold_bounded (nexthops s) -> hold_bounded (nexthops s').
Proof.
  unfold maybe_hold_packet, hold_bounded. intros H Hb p n' Hp'.
  destruct (nexthops s !! nh_p) as [n0|] eqn:Hn; [|discriminate]. cbn in H.
  destruct (mbufs s !! mbuf) as [mb|] eqn:Hm; [|discriminate]. cbn in H.
  destruct (has_flag n0 GR_IP6_NH_F_REACHABLE || rte_ipv6_addr_is_mcast (dst_addr mb)).
  { simplify_eq. eauto. }
  destruct (held_pkts_num n0 <? IP6_NH_MAX_HELD_PKTS) eqn:Hlt.
  2:{ simplify_eq. eauto. }
  apply Z.ltb_lt in Hlt.
  destruct (hold_enqueue _ n0 mbuf) as [[ms n1]|] eqn:Henq; [|discriminate]. cbn in H.
  apply hold_enqueue_num in Henq as [Hnum _].
  destruct (negb (has_flag n1 GR_IP6_NH_F_PENDING)); simplify_eq; cbn in Hp';
    (destruct (decide (p = nh_p)) as [->|Hne];
      [rewrite lookup_insert_eq in Hp'; simplify_eq; cbn; lia
      |rewrite lookup_insert_ne in Hp' by congruence; eauto]).
Qed.

(** The next-hop store outside [q] is not touched by [maybe_hold_packet]. *)
Lemma maybe_hold_packet_frame s nh_p mbuf status s' q :
  maybe_hold_packet s nh_p mbuf = Some (status, s') ->
  q ≠ nh_p -> nexthops s' !! q = nexthops s !! q.
Proof.
  unfold maybe_hold_packet. intros H Hq.
  destruct (nexthops s !! nh_p) as [n0|]; [|discriminate]. cbn in H.
  destruct (mbufs s !! mbuf) as [mb|]; [|discriminate]. cbn in H.
  destruct (_ || _); [now simplify_eq|].
  destruct (_ <? _); [|now simplify_eq].
  destruct (hold_enqueue _ n0 mbuf) as [[ms n1]|]; [|discriminate]. cbn in H.
  destruct (negb _); simplify_eq; cbn; now rewrite lookup_insert_ne by congruence.
Qed.

(** C8: if the next hop [nh_p] holds at most [IP6_NH_MAX_HELD_PKTS] packets
    before [maybe_hold_packet] is called on it, it does so after the call, and
    every other next hop of the store is left as it was. *)
Theorem maybe_hold_packet_bound s nh_p mbuf status s' n :
  maybe_hold_packet s nh_p mbuf = Some (status, s') ->
  nexthops s !! nh_p = Some n ->
  held_pkts_num n <= IP6_NH_MAX_HELD_PKTS ->
  (exists n', nexthops s' !! nh_p = Some n'
              /\ held_pkts_num n <= held_pkts_num n' <= IP6_NH_MAX_HELD_PKTS)
  /\ (forall q, q ≠ nh_p -> nexthops s' !! q = nexthops s !! q).
Proof.
  intros H Hn Hle. split; [|intros q Hq; eapply maybe_hold_packet_frame; eassumption].
  unfold maybe_hold_packet in H. rewrite Hn in H. cbn in H.
  destruct (mbufs s !! mbuf) as [mb|]; [|discriminate]. cbn in H.
  destruct (has_flag n GR_IP6_NH_F_REACHABLE || rte_ipv6_addr_is_mcast (dst_addr mb)).
  { simplify_eq. exists n. split; [assumption|lia]. }
  destruct (held_pkts_num n <? IP6_NH_MAX_HELD_PKTS) eqn:Hlt.
  2:{ simplify_eq. exists n. split; [assumption|lia]. }
  apply Z.ltb_lt in Hlt.
  destruct (hold_enqueue _ n mbuf) as [[ms n1]|] eqn:Henq; [|discriminate]. cbn in H.
  apply hold_enqueue_num in Henq as [Hnum _].
  destruct (negb (has_flag n1 GR_IP6_NH_F_PENDING)); simplify_eq; cbn;
    rewrite lookup_insert_eq; eexists; (split; [reflexivity|cbn; lia]).
Qed.

(** *** The bound over a whole burst *)
Section HoldBound.

(** The allocator of the control plane hands out next hops within the limit
    and keeps the others so. *)
Hypothesis nexthop_new_bounded : forall nhs vrf ifc a,
  hold_bounded nhs -> hold_bounded (ip6_nexthop_new nhs vrf ifc a).2.

Lemma promote_keeps_bound s nh_p mbuf s' r :
  promote s nh_p mbuf = Some (s', r) ->
  hold_bounded (nexthops s) -> hold_bounded (nexthops s').
Proof.
  unfold promote. intros H Hb.
  destruct (nexthops s !! nh_p) as [n|]; [|discriminate]. cbn in H.
  destruct (mbufs s !! mbuf) as [mb|] eqn:Hm; [|discriminate]. cbn in H.
  destruct (_ && _); [|now simplify_eq].
  pose proof (nexthop_new_bounded (nexthops s) (vrf_id n) (iface_id n) (dst_addr mb) Hb) as Hb'.
  destruct (ip6_nexthop_new (nexthops s) (vrf_id n) (iface_id n) (dst_addr mb)) as [[r'|] nhs];
    cbn in *; [|now simplify_eq].
  destruct (ip6_route_insert _ _ _ _ _) as [ret f]. cbn in H.
  destruct (ret <? 0); now simplify_eq.
Qed.

Lemma ip6_output_pkt_keeps_bound edges s sent mbuf s' sent' :
  ip6_output_pkt edges s sent mbuf = Some (s', sent') ->
  hold_bounded (nexthops s) -> hold_bounded (nexthops s').
Proof.
  unfold ip6_output_pkt. intros H Hb.
  destruct (select_edge edges s mbuf) as [[edge|[nh0 ifc]]|]; [| |discriminate]; cbn in H.
  { now simplify_eq. }
  destruct (promote s nh0 mbuf) as [[s1 [edge|nh1]]|] eqn:Hp; [| |discriminate]; cbn in H.
  { simplify_eq. cbn. eapply promote_keeps_bound; eassumption. }
  pose proof (promote_keeps_bound _ _ _ _ _ Hp Hb) as Hb1.
  destruct (maybe_hold_packet s1 nh1 mbuf) as [[status s2]|] eqn:Hh; [|discriminate]; cbn in H.
  pose proof (maybe_hold_packet_keeps_bound _ _ _ _ _ Hh Hb1) as Hb2.
  destruct status.
  - unfold prepare_eth in H.
    destruct (nexthops s2 !! nh1); [|discriminate]. cbn in H.
    destruct (mbufs s2 !! mbuf); [|discriminate]. cbn in H. now simplify_eq.
  - now simplify_eq.
  - now simplify_eq.
Qed.

(** X18: if the hold queues are within the limit before
    [ip6_output_process] runs on a burst, and the allocator of the control
    plane keeps them so, they are within it afterwards. *)
Lemma ip6_output_process_keeps_bound edges objs : forall s s' sent,
  ip6_output_process edges s objs = Some (s', sent) ->
  hold_bounded (nexthops s) -> hold_bounded (nexthops s').
Proof.
  unfold ip6_output_process. generalize 0.
  induction objs as [|mbuf objs IH]; intros sent0 s s' sent H Hb; cbn in H.
  - now simplify_eq.
  - destruct (ip6_output_pkt edges s sent0 mbuf) as [[s1 sent1]|] eqn:Hp; [|discriminate].
    cbn in H. eapply IH; [exact H|]. eapply ip6_output_pkt_keeps_bound; eassumption.
Qed.

End HoldBound.

(** *** Sending *)

(** C7: a packet that reaches [OK_TO_SEND] leaves the loop body counted as
    sent, in a state [s3] where
    - the mbuf stored at [mbuf] has in its eth-output metadata the
      destination MAC derived from the IPv6 address when that is multicast
      and copied from the next hop's [lladdr] otherwise, the ether-type bytes
      0x86 0xDD and the interface resolved from the next hop the packet came
      with; its other fields and the other mbufs are as before;
    - the trace has one more event, the enqueue of the packet on
      [ETH_OUTPUT];
    - the next hops and the route table are as before;
    and a multicast destination reaches [OK_TO_SEND] whatever the flags of
    the next hop. *)
Theorem ok_to_send_eth_output edges s0 sent mbuf s nh_p ifc n mb s2 :
  reaches_hold edges s0 mbuf s nh_p ifc ->
  nexthops s !! nh_p = Some n ->
  mbufs s !! mbuf = Some mb ->
  (maybe_hold_packet s nh_p mbuf = Some (OK_TO_SEND, s2) ->
     s2 = s
     /\ (exists s3 mb',
           ip6_output_pkt edges s0 sent mbuf = Some (s3, u16 (sent + 1))
           /\ mbufs s3 !! mbuf = Some mb'
           /\ dst (eth_data mb') = (if rte_ipv6_addr_is_mcast (dst_addr mb)
                                    then rte_ether_mcast_from_ipv6 (dst_addr mb)
                                    else lladdr n)
           /\ ether_type (eth_data mb') = [0x86; 0xDD]
           /\ eth_iface (eth_data mb') = Some ifc
           /\ dst_addr mb' = dst_addr mb /\ nh mb' = nh mb /\ next mb' = next mb
           /\ mbufs s3 = <[mbuf := mb']> (mbufs s)
           /\ trace s3 = trace s ++ [NodeEnqueue ETH_OUTPUT mbuf]
           /\ nexthops s3 = nexthops s
           /\ fib s3 = fib s)
     /\ exists mb0 nh0 n0,
          mbufs s0 !! mbuf = Some mb0 /\ nh mb0 = Some nh0 /\ nexthops s0 !! nh0 = Some n0
          /\ iface_from_id (iface_id n0) = Some ifc)
  /\ (rte_ipv6_addr_is_mcast (dst_addr mb) = true ->
      maybe_hold_packet s nh_p mbuf = Some (OK_TO_SEND, s)).
Proof.
  intros Hr Hn Hm.
  pose proof (maybe_hold_packet_eq s nh_p mbuf n mb Hn Hm) as Heq.
  split.
  - intros Hok.
    assert (s2 = s) as ->.
    { rewrite Heq in Hok.
      destruct (_ || _); [congruence|].
      destruct (_ <? _); [|congruence].
      destruct (hold_enqueue _ n mbuf) as [[ms n1]|]; [|discriminate]. cbn in Hok.
      destruct (negb _); congruence. }
    split; [reflexivity|]. split.
    + rewrite (ip6_output_pkt_at_hold edges s0 sent mbuf s nh_p ifc Hr), Hok. cbn.
      unfold prepare_eth. rewrite Hn, Hm. cbn.
      eexists _, _. split; [reflexivity|]. cbn.
      split; [apply lookup_insert_eq|]. cbn. repeat split.
    + destruct Hr as (nh0 & Hsel & _).
      destruct (select_edge_inr _ _ _ _ _ Hsel) as (mb0 & n0 & ? & ? & ? & ? & _).
      eauto 10.
  - intros Hmc. rewrite Heq, Hmc, orb_true_r. reflexivity.
Qed.

(** *** On-demand promotion *)

(** C4, as the code has it: for a packet that passed lines 91 to 105 (its
    next hop is set, the interface of the next hop exists and its type has no
    tunnel edge), whose next hop has LINK and whose destination is unicast and
    is not the next hop's address: [ip6_nexthop_new] is called for the
    destination.
    - If it fails, the loop body ends with the call and the enqueue of the
      packet on ERROR added to the trace, the mbufs and [sent] as before.
    - Else [ip6_route_insert] is called with depth 128 and the new next hop.
      If that fails, the loop body ends with the two calls and the enqueue
      of the packet on ERROR added to the trace, the mbufs and [sent] as
      before.
    - Else the packet reaches the hold-queue step with the new next hop, in
      a state where the stored mbuf has the new next hop in [nh], where it
      had the old one, and its other fields as before, the trace has the two
      calls added and nothing else, and the next-hop store and the route
      table are the ones the two calls returned. *)
Theorem promotion_of_link_packet edges s sent mbuf nh_p ifc n mb :
  select_edge edges s mbuf = Some (inr (nh_p, ifc)) ->
  nexthops s !! nh_p = Some n ->
  mbufs s !! mbuf = Some mb ->
  has_flag n GR_IP6_NH_F_LINK = true ->
  rte_ipv6_addr_is_mcast (dst_addr mb) = false ->
  dst_addr mb ≠ ip n ->
  let new := ip6_nexthop_new (nexthops s) (vrf_id n) (iface_id n) (dst_addr mb) in
  match new.1 with
  | None =>
      exists s',
        ip6_output_pkt edges s sent mbuf = Some (s', sent)
        /\ trace s' = trace s ++ [NexthopNew (vrf_id n) (iface_id n) (dst_addr mb) None;
                                  NodeEnqueue ERROR mbuf]
        /\ mbufs s' = mbufs s /\ nexthops s' = new.2 /\ fib s' = fib s
  | Some r =>
      let ins := ip6_route_insert (fib s) (vrf_id n) (dst_addr mb) 128 r in
      if ins.1 <? 0 then
        exists s',
          ip6_output_pkt edges s sent mbuf = Some (s', sent)
          /\ trace s' = trace s ++ [NexthopNew (vrf_id n) (iface_id n) (dst_addr mb) (Some r);
                                    RouteInsert (vrf_id n) (dst_addr mb) 128 r ins.1;
                                    NodeEnqueue ERROR mbuf]
          /\ mbufs s' = mbufs s /\ nexthops s' = new.2 /\ fib s' = ins.2
      else
        exists s3 mb',
          reaches_hold edges s mbuf s3 r ifc
          /\ nh mb = Some nh_p
          /\ mbufs s3 !! mbuf = Some mb'
          /\ nh mb' = Some r
          /\ dst_addr mb' = dst_addr mb /\ next mb' = next mb /\ eth_data mb' = eth_data mb
          /\ mbufs s3 = <[mbuf := mb']> (mbufs s)
          /\ trace s3 = trace s ++ [NexthopNew (vrf_id n) (iface_id n) (dst_addr mb) (Some r);
                                    RouteInsert (vrf_id n) (dst_addr mb) 128 r ins.1]
          /\ nexthops s3 = new.2 /\ fib s3 = ins.2
  end.
Proof.
  intros Hsel Hn Hm Hl Hmc Hne.
  pose proof (promote_taken s nh_p mbuf n mb Hn Hm Hl Hmc Hne) as Hp.
  assert (Hnh : nh mb = Some nh_p).
  { destruct (select_edge_inr _ _ _ _ _ Hsel) as (mb0 & n0 & Hm0 & ? & _). congruence. }
  cbv zeta in *. change RTE_IPV6_MAX_DEPTH with 128 in Hp.
  destruct (ip6_nexthop_new (nexthops s) (vrf_id n) (iface_id n) (dst_addr mb))
    as [[r|] nhs]; cbn [fst snd] in *.
  - destruct (ip6_route_insert (fib s) (vrf_id n) (dst_addr mb) 128 r) as [ret f];
      cbn [fst snd] in *.
    destruct (ret <? 0).
    + unfold ip6_output_pkt. rewrite Hsel. cbn. rewrite Hp. cbn.
      eexists. split; [reflexivity|]. cbn. rewrite <- !app_assoc. repeat split.
    + eexists _, _. split; [exists nh_p; split; [exact Hsel|exact Hp]|].
      split; [exact Hnh|]. cbn.
      split; [apply lookup_insert_eq|]. cbn. rewrite <- !app_assoc. repeat split.
  - unfold ip6_output_pkt. rewrite Hsel. cbn. rewrite Hp. cbn.
    eexists. split; [reflexivity|]. cbn. rewrite <- !app_assoc. repeat split.
Qed.

(** C10: on the promotion path [promote] always returns; when it returns a
    next hop, both control-plane calls succeeded and the stored mbuf has that
    next hop in [nh]; when it returns an edge, one of the calls failed, the
    edge is ERROR, the mbuf store is untouched, so the stored mbuf still has
    in [nh] the next hop the packet came with, and the loop body ends with
    one more event in the trace, the enqueue of the packet on ERROR, with
    the mbufs and [sent] as before. *)
Theorem promotion_failure_keeps_nh edges s sent mbuf nh_p ifc n mb :
  select_edge edges s mbuf = Some (inr (nh_p, ifc)) ->
  nexthops s !! nh_p = Some n ->
  mbufs s !! mbuf = Some mb ->
  has_flag n GR_IP6_NH_F_LINK = true ->
  rte_ipv6_addr_is_mcast (dst_addr mb) = false ->
  dst_addr mb ≠ ip n ->
  let new := ip6_nexthop_new (nexthops s) (vrf_id n) (iface_id n) (dst_addr mb) in
  exists s' res,
    promote s nh_p mbuf = Some (s', res)
    /\ nh mb = Some nh_p
    /\ match res with
       | inr r =>
           new.1 = Some r
           /\ 0 <= (ip6_route_insert (fib s) (vrf_id n) (dst_addr mb) 128 r).1
           /\ exists mb',
                mbufs s' !! mbuf = Some mb'
                /\ nh mb' = Some r
                /\ dst_addr mb' = dst_addr mb /\ next mb' = next mb
                /\ eth_data mb' = eth_data mb
       | inl edge =>
           (new.1 = None
            \/ exists r, new.1 = Some r
                         /\ (ip6_route_insert (fib s) (vrf_id n) (dst_addr mb) 128 r).1 < 0)
           /\ edge = ERROR
           /\ mbufs s' = mbufs s
           /\ exists s2,
                ip6_output_pkt edges s sent mbuf = Some (s2, sent)
                /\ trace s2 = trace s' ++ [NodeEnqueue ERROR mbuf]
                /\ mbufs s2 !! mbuf = Some mb
                /\ mbufs s2 = mbufs s
                /\ nexthops s2 = nexthops s' /\ fib s2 = fib s'
       end.
Proof.
  intros Hsel Hn Hm Hl Hmc Hne.
  pose proof (promote_taken s nh_p mbuf n mb Hn Hm Hl Hmc Hne) as Hp.
  assert (Hnh : nh mb = Some nh_p).
  { destruct (select_edge_inr _ _ _ _ _ Hsel) as (mb0 & n0 & Hm0 & ? & _). congruence. }
  cbv zeta in *. change RTE_IPV6_MAX_DEPTH with 128 in Hp.
  destruct (ip6_nexthop_new (nexthops s) (vrf_id n) (iface_id n) (dst_addr mb))
    as [[r|] nhs]; cbn [fst snd] in *.
  - destruct (ip6_route_insert (fib s) (vrf_id n) (dst_addr mb) 128 r) as [ret f] eqn:Hins;
      cbn [fst snd] in *.
    destruct (ret <? 0) eqn:Hret.
    + eexists _, _. split; [exact Hp|]. split; [assumption|].
      apply Z.ltb_lt in Hret.
      split; [right; exists r; split; [reflexivity|rewrite Hins; cbn; lia]|].
      split; [reflexivity|]. split; [reflexivity|].
      unfold ip6_output_pkt. rewrite Hsel. cbn. rewrite Hp. cbn.
      eexists. split; [reflexivity|]. cbn. repeat split. exact Hm.
    + eexists _, _. split; [exact Hp|]. split; [assumption|].
      apply Z.ltb_ge in Hret. cbn.
      split; [reflexivity|]. split; [rewrite Hins; cbn; lia|].
      eexists. split; [apply lookup_insert_eq|]. cbn. repeat split.
  - eexists _, _. split; [exact Hp|]. split; [assumption|].
    split; [left; reflexivity|]. split; [reflexivity|]. split; [reflexivity|].
    unfold ip6_output_pkt. rewrite Hsel. cbn. rewrite Hp. cbn.
    eexists. split; [reflexivity|]. cbn. repeat split. exact Hm.
Qed.

(** *** The tunnel table *)

(** C9: [ip6_output_add_tunnel] aborts for the undefined interface type, for
    a type of 128 or more, and for a type whose slot already holds another
    edge than [ETH_OUTPUT]; it returns, with the attached edge stored in the
    slot, exactly when the type is defined, below 128 and its slot holds
    [ETH_OUTPUT]. *)
Theorem add_tunnel_aborts (edges : list Z) (iface_type_id : nat) (next_node : string) :
  (iface_type_id = GR_IFACE_TYPE_UNDEF \/ (128 <= iface_type_id)%nat ->
     exists msg, ip6_output_add_tunnel edges iface_type_id next_node = Aborted msg)
  /\ (forall e, edges !! iface_type_id = Some e -> e ≠ ETH_OUTPUT ->
        exists msg, ip6_output_add_tunnel edges iface_type_id next_node = Aborted msg)
  /\ (forall edges',
        ip6_output_add_tunnel edges iface_type_id next_node = Returned edges' <->
        iface_type_id ≠ GR_IFACE_TYPE_UNDEF /\ (iface_type_id < 128)%nat
        /\ edges !! iface_type_id = Some ETH_OUTPUT
        /\ edges' = <[iface_type_id := gr_node_attach_parent "ip6_output" next_node]> edges).
Proof.
  unfold ip6_output_add_tunnel, EDGES_DIM.
  split; [|split].
  - intros [-> | Hge].
    + rewrite bool_decide_eq_true_2 by reflexivity. eauto.
    + rewrite (proj2 (Nat.leb_le _ _) Hge), orb_true_r. eauto.
  - intros e He Hne.
    destruct (_ || _); [eauto|]. rewrite He, bool_decide_eq_true_2 by assumption. eauto.
  - intros edges'. split.
    + intros H. case_bool_decide as Hu; [discriminate|]. cbn [orb] in H.
      destruct (128 <=? iface_type_id)%nat eqn:Hd; [discriminate|].
      apply Nat.leb_gt in Hd.
      destruct (edges !! iface_type_id) as [e|]; [|discriminate].
      case_bool_decide as He; [discriminate|].
      assert (e = ETH_OUTPUT) as -> by (destruct (decide (e = ETH_OUTPUT)); [assumption|contradiction]).
      now simplify_eq.
    + intros (Hu & Hlt & He & ->).
      rewrite bool_decide_eq_false_2 by assumption.
      rewrite (proj2 (Nat.leb_gt _ _) Hlt). cbn [orb]. rewrite He.
      rewrite bool_decide_eq_false_2 by (intros Hne; now apply Hne). reflexivity.
Qed.

End Ip6Properties.

(** ** What the ip6_output node does with a burst *)
Section Ip6Burst.
Import Ip6Output.
Context {E : Externals}.

Lemma enqueued_app l1 l2 : enqueued (l1 ++ l2) = enqueued l1 ++ enqueued l2.
Proof. unfold enqueued. apply omap_app. Qed.

Lemma n_eth_output_app l1 l2 :
  n_eth_output (l1 ++ l2) = (n_eth_output l1 + n_eth_output l2)%nat.
Proof. unfold n_eth_output. now rewrite enqueued_app, filter_app, length_app. Qed.

(** An edge taken at lines 91 to 105 is never [ETH_OUTPUT]. *)
Lemma select_edge_inl edges s mbuf edge :
  select_edge edges s mbuf = Some (inl edge) -> edge ≠ ETH_OUTPUT.
Proof.
  unfold select_edge. intros H.
  destruct (mbufs s !! mbuf) as [mb|]; [|discriminate]. cbn in H.
  destruct (nh mb) as [p|]; [|simplify_eq; discriminate].
  destruct (nexthops s !! p) as [n|]; [|discriminate]. cbn in H.
  destruct (iface_from_id (iface_id n)) as [ifc|]; [|simplify_eq; discriminate].
  destruct (edges !! type_id ifc) as [e|]; [|discriminate]. cbn in H.
  case_bool_decide; now simplify_eq.
Qed.

Lemma promote_events s nh_p mbuf s1 r :
  promote s nh_p mbuf = Some (s1, r) ->
  (exists evs, trace s1 = trace s ++ evs /\ enqueued evs = [])
  /\ (forall edge, r = inl edge -> edge = ERROR).
Proof.
  unfold promote. intros H.
  destruct (nexthops s !! nh_p) as [n|]; [|discriminate]. cbn in H.
  destruct (mbufs s !! mbuf) as [mb|] eqn:Hm; [|discriminate]. cbn in H.
  destruct (_ && _).
  2:{ simplify_eq. split; [exists []; now rewrite app_nil_r|discriminate]. }
  destruct (ip6_nexthop_new _ _ _ _) as [[r'|] nhs]; cbn in H.
  2:{ simplify_eq. split; [eexists; split; [reflexivity|reflexivity]|congruence]. }
  destruct (ip6_route_insert _ _ _ _ _) as [ret f]. cbn in H.
  destruct (ret <? 0).
  - simplify_eq. split; [|congruence].
    eexists. cbn. rewrite <- app_assoc. split; reflexivity.
  - simplify_eq. split; [|discriminate].
    eexists. cbn. rewrite <- app_assoc. split; reflexivity.
Qed.

Lemma maybe_hold_events s nh_p mbuf status s2 :
  maybe_hold_packet s nh_p mbuf = Some (status, s2) ->
  exists evs, trace s2 = trace s ++ evs /\ enqueued evs = [].
Proof.
  unfold maybe_hold_packet. intros H.
  destruct (nexthops s !! nh_p) as [n|]; [|discriminate]. cbn in H.
  destruct (mbufs s !! mbuf) as [mb|]; [|discriminate]. cbn in H.
  destruct (_ || _); [simplify_eq; exists []; now rewrite app_nil_r|].
  destruct (_ <? _); [|simplify_eq; exists []; now rewrite app_nil_r].
  destruct (hold_enqueue _ n mbuf) as [[ms n1]|]; [|discriminate]. cbn in H.
  destruct (negb _); simplify_eq; cbn.
  - eexists. split; reflexivity.
  - exists []. now rewrite app_nil_r.
Qed.

(** One packet adds to the trace at most one enqueue, of that packet; it is
    counted as sent exactly when the enqueue is on [ETH_OUTPUT]. *)
Lemma ip6_output_pkt_events edges s sent mbuf s' sent' :
  ip6_output_pkt edges s sent mbuf = Some (s', sent') ->
  exists evs,
    trace s' = trace s ++ evs
    /\ ((enqueued evs = [] /\ sent' = sent)
        \/ (exists edge, enqueued evs = [(edge, mbuf)] /\ edge ≠ ETH_OUTPUT /\ sent' = sent)
        \/ (enqueued evs = [(ETH_OUTPUT, mbuf)] /\ sent' = u16 (sent + 1))).
Proof.
  unfold ip6_output_pkt. intros H.
  destruct (select_edge edges s mbuf) as [[edge|[nh0 ifc]]|] eqn:Hsel; [| |discriminate];
    cbn in H.
  { simplify_eq. apply select_edge_inl in Hsel.
    exists [NodeEnqueue edge mbuf]. split; [reflexivity|]. right. left. eauto. }
  destruct (promote s nh0 mbuf) as [[s1 [edge|nh1]]|] eqn:Hp; [| |discriminate]; cbn in H;
    destruct (promote_events _ _ _ _ _ Hp) as [(evs1 & Ht1 & He1) Hedge].
  { simplify_eq. rewrite (Hedge edge eq_refl).
    exists (evs1 ++ [NodeEnqueue ERROR mbuf]). cbn. rewrite Ht1, <- app_assoc.
    split; [reflexivity|]. right. left. exists ERROR.
    rewrite enqueued_app, He1. repeat split. discriminate. }
  destruct (maybe_hold_packet s1 nh1 mbuf) as [[status s2]|] eqn:Hh; [|discriminate];
    cbn in H.
  destruct (maybe_hold_events _ _ _ _ _ Hh) as (evs2 & Ht2 & He2).
  destruct status.
  - unfold prepare_eth in H.
    destruct (nexthops s2 !! nh1); [|discriminate]. cbn in H.
    destruct (mbufs s2 !! mbuf); [|discriminate]. cbn in H. simplify_eq.
    exists (evs1 ++ evs2 ++ [NodeEnqueue ETH_OUTPUT mbuf]). cbn.
    rewrite Ht2, Ht1, <- !app_assoc. split; [reflexivity|]. right. right.
    rewrite !enqueued_app, He1, He2. split; reflexivity.
  - simplify_eq. exists (evs1 ++ evs2). rewrite Ht2, Ht1, <- app_assoc.
    split; [reflexivity|]. left. rewrite enqueued_app, He1, He2. split; reflexivity.
  - simplify_eq. exists (evs1 ++ evs2 ++ [NodeEnqueue QUEUE_FULL mbuf]). cbn.
    rewrite Ht2, Ht1, <- !app_assoc. split; [reflexivity|]. right. left.
    exists QUEUE_FULL. rewrite !enqueued_app, He1, He2. repeat split. discriminate.
Qed.

Lemma u16_range z : 0 <= u16 z < 65536.
Proof. unfold u16. apply Z.mod_pos_bound. lia. Qed.

Lemma ip6_output_loop_events edges objs : forall s sent0 s' sent,
  ip6_output_loop edges s sent0 objs = Some (s', sent) ->
  0 <= sent0 < 65536 ->
  exists evs,
    trace s' = trace s ++ evs
    /\ (enqueued evs).*2 `sublist_of` objs
    /\ sent = u16 (sent0 + Z.of_nat (n_eth_output evs))
    /\ (n_eth_output evs <= length objs)%nat.
Proof.
  induction objs as [|mbuf objs IH]; intros s sent0 s' sent H Hr; cbn in H.
  - simplify_eq. exists []. rewrite app_nil_r. repeat split; [constructor| |cbn; lia].
    cbn. unfold u16. rewrite Z.add_0_r, Z.mod_small; lia.
  - destruct (ip6_output_pkt edges s sent0 mbuf) as [[s1 sent1]|] eqn:Hp; [|discriminate].
    cbn in H.
    destruct (ip6_output_pkt_events _ _ _ _ _ _ Hp) as (evs1 & Ht1 & Hcase).
    assert (Hr1 : 0 <= sent1 < 65536).
    { destruct Hcase as [[_ ->] | [(? & _ & _ & ->) | [_ ->]]]; auto using u16_range. }
    destruct (IH _ _ _ _ H Hr1) as (evs2 & Ht2 & Hsub & Hsent & Hle).
    exists (evs1 ++ evs2). rewrite Ht2, Ht1, <- app_assoc.
    split; [reflexivity|]. rewrite enqueued_app, fmap_app, n_eth_output_app.
    destruct Hcase as [[He ->] | [(edge & He & Hne & ->) | [He ->]]].
    + assert (Hn : n_eth_output evs1 = 0%nat) by (unfold n_eth_output; now rewrite He).
      rewrite Hn, He. cbn [fmap list_fmap app].
      split; [now apply sublist_cons|]. split; [assumption|cbn; lia].
    + assert (Hn : n_eth_output evs1 = 0%nat).
      { unfold n_eth_output. rewrite He, filter_cons_False by (cbn; assumption). reflexivity. }
      rewrite Hn, He. cbn [fmap list_fmap app snd].
      split; [now apply sublist_skip|]. split; [assumption|cbn; lia].
    + assert (Hn : n_eth_output evs1 = 1%nat).
      { unfold n_eth_output. rewrite He, filter_cons_True by reflexivity. reflexivity. }
      rewrite Hn, He. cbn [fmap list_fmap app snd].
      split; [now apply sublist_skip|]. split; [|cbn; lia].
      rewrite Hsent. unfold u16.
      rewrite Z.add_mod_idemp_l by lia. f_equal. lia.
Qed.

(** X9: the packets that [ip6_output_process] enqueues are, in the order of
    the enqueues, a sublist of the burst: each packet is enqueued at most
    once and the order of the burst is kept. *)
Theorem ip6_output_process_enqueues_sublist edges s objs s' sent :
  ip6_output_process edges s objs = Some (s', sent) ->
  exists evs, trace s' = trace s ++ evs /\ (enqueued evs).*2 `sublist_of` objs.
Proof.
  intros H. destruct (ip6_output_loop_events edges objs s 0 s' sent H ltac:(lia))
    as (evs & ? & ? & _). eauto.
Qed.

(** X10: the value [ip6_output_process] returns is the number of packets it
    enqueued on [ETH_OUTPUT], for a burst of fewer than 65536 packets (and
    modulo 65536 in general). *)
Theorem ip6_output_process_sent edges s objs s' sent :
  ip6_output_process edges s objs = Some (s', sent) ->
  exists evs,
    trace s' = trace s ++ evs
    /\ sent = u16 (Z.of_nat (n_eth_output evs))
    /\ (Z.of_nat (length objs) < 65536 -> sent = Z.of_nat (n_eth_output evs)).
Proof.
  intros H. destruct (ip6_output_loop_events edges objs s 0 s' sent H ltac:(lia))
    as (evs & Ht & _ & Hsent & Hle).
  exists evs. split; [assumption|]. rewrite Z.add_0_l in Hsent. split; [assumption|].
  intros Hlen. rewrite Hsent. unfold u16. apply Z.mod_small. lia.
Qed.

End Ip6Burst.

(** ** Exits, tunnels and solicitations *)
Section Ip6Edges.
Import Ip6Output.
Context {E : Externals}.

(** X11: a packet that leaves at lines 91 to 105 costs one event and nothing
    else: the trace gets the enqueue of the packet, on [NO_ROUTE] when it has
    no next hop, on [ERROR] when the interface of its next hop is not found,
    on the edge of the table when that is not [ETH_OUTPUT]; no control-plane
    call is made, the next hops (flags and hold queues), the mbufs and the
    route table are as before and the packet is not counted as sent, whatever
    the flags of the next hop and the state of its hold queue. *)
Theorem ip6_output_pkt_early_exit edges s sent mbuf mb :
  mbufs s !! mbuf = Some mb ->
  (nh mb = None ->
     exists s', ip6_output_pkt edges s sent mbuf = Some (s', sent)
                /\ trace s' = trace s ++ [NodeEnqueue NO_ROUTE mbuf]
                /\ nexthops s' = nexthops s /\ mbufs s' = mbufs s /\ fib s' = fib s)
  /\ (forall p n, nh mb = Some p -> nexthops s !! p = Some n ->
        iface_from_id (iface_id n) = None ->
        exists s', ip6_output_pkt edges s sent mbuf = Some (s', sent)
                   /\ trace s' = trace s ++ [NodeEnqueue ERROR mbuf]
                   /\ nexthops s' = nexthops s /\ mbufs s' = mbufs s /\ fib s' = fib s)
  /\ (forall p n ifc edge, nh mb = Some p -> nexthops s !! p = Some n ->
        iface_from_id (iface_id n) = Some ifc ->
        edges !! type_id ifc = Some edge -> edge ≠ ETH_OUTPUT ->
        exists s', ip6_output_pkt edges s sent mbuf = Some (s', sent)
                   /\ trace s' = trace s ++ [NodeEnqueue edge mbuf]
                   /\ nexthops s' = nexthops s /\ mbufs s' = mbufs s /\ fib s' = fib s).
Proof.
  intros Hm. unfold ip6_output_pkt, select_edge. rewrite Hm. cbn.
  split; [|split].
  - intros ->. cbn. eexists. split; [reflexivity|]. cbn. repeat split.
  - intros p n -> Hn Hi. rewrite Hn. cbn. rewrite Hi. cbn.
    eexists. split; [reflexivity|]. cbn. repeat split.
  - intros p n ifc edge -> Hn Hi He Hne. rewrite Hn. cbn. rewrite Hi, He. cbn.
    rewrite bool_decide_eq_true_2 by assumption. cbn.
    eexists. split; [reflexivity|]. cbn. repeat split.
Qed.

(** X12: [ip6_output_process] reads [edges[iface->type_id]] without a range
    check: for a packet whose next hop is on an interface of a type that is
    not below the size of the table, the read is outside the table. *)
Theorem ip6_output_pkt_type_outside_table edges s sent mbuf mb p n ifc :
  mbufs s !! mbuf = Some mb -> nh mb = Some p -> nexthops s !! p = Some n ->
  iface_from_id (iface_id n) = Some ifc ->
  length edges = EDGES_DIM -> (128 <= type_id ifc)%nat ->
  edges !! type_id ifc = None /\ ip6_output_pkt edges s sent mbuf = None.
Proof.
  intros Hm Hnh Hn Hi Hlen Hty.
  assert (Hout : edges !! type_id ifc = None).
  { apply lookup_ge_None. rewrite Hlen. unfold EDGES_DIM. lia. }
  split; [assumption|].
  unfold ip6_output_pkt, select_edge. rewrite Hm. cbn. rewrite Hnh, Hn. cbn.
  rewrite Hi, Hout. reflexivity.
Qed.

Lemma add_tunnel_returned edges t name edges' :
  ip6_output_add_tunnel edges t name = Returned edges' ->
  (t < length edges)%nat
  /\ edges' = <[t := gr_node_attach_parent "ip6_output" name]> edges.
Proof.
  unfold ip6_output_add_tunnel. intros H.
  destruct (_ || _); [discriminate|].
  destruct (edges !! t) as [e|] eqn:He; [|discriminate].
  case_bool_decide; [discriminate|]. simplify_eq.
  split; [eapply lookup_lt_Some, He|reflexivity].
Qed.

(** X13: after [ip6_output_add_tunnel] registered a node for an interface
    type, with an edge other than [ETH_OUTPUT], a packet whose next hop is on
    an interface of that type costs one event, the enqueue of the packet on
    the edge that [gr_node_attach_parent] returned, with the stores, the
    route table and [sent] as before; a packet on an interface of another
    type is handled as before the registration. *)
Theorem add_tunnel_redirects edges t name edges' s sent mbuf mb p n ifc :
  ip6_output_add_tunnel edges t name = Returned edges' ->
  gr_node_attach_parent "ip6_output" name ≠ ETH_OUTPUT ->
  mbufs s !! mbuf = Some mb -> nh mb = Some p -> nexthops s !! p = Some n ->
  iface_from_id (iface_id n) = Some ifc ->
  (type_id ifc = t ->
     exists s',
       ip6_output_pkt edges' s sent mbuf = Some (s', sent)
       /\ trace s' = trace s ++ [NodeEnqueue (gr_node_attach_parent "ip6_output" name) mbuf]
       /\ nexthops s' = nexthops s /\ mbufs s' = mbufs s /\ fib s' = fib s)
  /\ (type_id ifc ≠ t ->
      ip6_output_pkt edges' s sent mbuf = ip6_output_pkt edges s sent mbuf).
Proof.
  intros Hadd Hne Hm Hnh Hn Hi.
  apply add_tunnel_returned in Hadd as [Hlt ->].
  unfold ip6_output_pkt, select_edge. rewrite Hm. cbn. rewrite Hnh, Hn. cbn. rewrite Hi.
  split.
  - intros ->. rewrite list_lookup_insert_eq by assumption. cbn.
    rewrite bool_decide_eq_true_2 by assumption. cbn.
    eexists. split; [reflexivity|]. cbn. repeat split.
  - intros Hty. rewrite list_lookup_insert_ne by congruence. reflexivity.
Qed.

(** X14: a second [ip6_output_add_tunnel] for an interface type aborts, when
    the first stored an edge other than [ETH_OUTPUT]; the first leaves the
    size of the table and the slots of the other types as they were. *)
Theorem add_tunnel_twice_aborts edges t name edges' name' :
  ip6_output_add_tunnel edges t name = Returned edges' ->
  gr_node_attach_parent "ip6_output" name ≠ ETH_OUTPUT ->
  (exists msg, ip6_output_add_tunnel edges' t name' = Aborted msg)
  /\ length edges' = length edges
  /\ (forall t', t' ≠ t -> edges' !! t' = edges !! t').
Proof.
  intros Hadd Hne.
  pose proof Hadd as Hret. apply add_tunnel_returned in Hret as [Hlt ->].
  split; [|split].
  - unfold ip6_output_add_tunnel in *.
    destruct (_ || _); [discriminate|].
    rewrite list_lookup_insert_eq by assumption.
    rewrite bool_decide_eq_true_2 by assumption. eauto.
  - apply length_insert.
  - intros t' Ht. apply list_lookup_insert_ne. congruence.
Qed.

Lemma land_lor_same (f b : Z) : Z.land (Z.lor f b) b = b.
Proof.
  apply Z.bits_inj'. intros i _. rewrite Z.land_spec, Z.lor_spec.
  destruct (Z.testbit f i), (Z.testbit b i); reflexivity.
Qed.

(** X15: once a packet was held for a next hop, the next hop has PENDING,
    and the next [maybe_hold_packet] for that next hop does not call
    [ip6_nexthop_solicit] again, whether it holds its packet or not. *)
Theorem maybe_hold_packet_solicits_once s nh_p m1 s1 m2 status s2 :
  GR_IP6_NH_F_PENDING ≠ 0 ->
  maybe_hold_packet s nh_p m1 = Some (HELD, s1) ->
  maybe_hold_packet s1 nh_p m2 = Some (status, s2) ->
  (exists n1, nexthops s1 !! nh_p = Some n1 /\ has_flag n1 GR_IP6_NH_F_PENDING = true)
  /\ trace s2 = trace s1.
Proof.
  intros Hbit H1 H2.
  assert (Hpend : exists n1, nexthops s1 !! nh_p = Some n1
                             /\ has_flag n1 GR_IP6_NH_F_PENDING = true).
  { unfold maybe_hold_packet in H1.
    destruct (nexthops s !! nh_p) as [n|]; [|discriminate]. cbn in H1.
    destruct (mbufs s !! m1) as [mb|]; [|discriminate]. cbn in H1.
    destruct (_ || _); [discriminate|].
    destruct (_ <? _); [|discriminate].
    destruct (hold_enqueue _ n m1) as [[ms n1]|]; [|discriminate]. cbn in H1.
    destruct (has_flag n1 GR_IP6_NH_F_PENDING) eqn:Hp; cbn in H1; simplify_eq; cbn;
      rewrite lookup_insert_eq; eexists; (split; [reflexivity|]); [assumption|].
    unfold has_flag. cbn. rewrite land_lor_same.
    apply negb_true_iff, Z.eqb_neq. assumption. }
  split; [assumption|]. destruct Hpend as (n1 & Hn1 & Hp).
  unfold maybe_hold_packet in H2. rewrite Hn1 in H2. cbn in H2.
  destruct (mbufs s1 !! m2) as [mb|]; [|discriminate]. cbn in H2.
  destruct (_ || _); [now simplify_eq|].
  destruct (_ <? _); [|now simplify_eq].
  destruct (hold_enqueue _ n1 m2) as [[ms n2]|] eqn:Henq; [|discriminate]. cbn in H2.
  apply hold_enqueue_num in Henq as [_ Hfl].
  unfold has_flag in H2 at 1. rewrite Hfl in H2. fold (has_flag n1 GR_IP6_NH_F_PENDING) in H2.
  rewrite Hp in H2. cbn in H2. now simplify_eq.
Qed.

End Ip6Edges.

(** ** Hold queues over several packets *)
Section Ip6Fifo.
Import Ip6Output.
Context {E : Externals}.

(** A packet that is held: the queue gets it at its end, and the mbufs that
    are neither the packet nor in the queue stay as they are. *)
Lemma maybe_hold_packet_held s nh_p mbuf n mb l :
  nexthops s !! nh_p = Some n -> mbufs s !! mbuf = Some mb ->
  held_queue (mbufs s) n l -> mbuf ∉ l ->
  has_flag n GR_IP6_NH_F_REACHABLE = false ->
  rte_ipv6_addr_is_mcast (dst_addr mb) = false ->
  held_pkts_num n < IP6_NH_MAX_HELD_PKTS ->
  exists s' n',
    maybe_hold_packet s nh_p mbuf = Some (HELD, s')
    /\ nexthops s' !! nh_p = Some n'
    /\ held_queue (mbufs s') n' (l ++ [mbuf])
    /\ held_pkts_num n' = held_pkts_num n + 1
    /\ (flags n' = flags n \/ flags n' = Z.lor (flags n) GR_IP6_NH_F_PENDING)
    /\ (forall x, x ≠ mbuf -> x ∉ l -> mbufs s' !! x = mbufs s !! x).
Proof.
  intros Hn Hm Hq Hfresh Hre Hmc Hlt.
  destruct (hold_enqueue_appends (mbufs s) n l mbuf mb Hq Hfresh)
    as (ms' & n1 & Henq & Hq' & Hnum & Hfl).
  assert (Hframe : forall x, x ≠ mbuf -> x ∉ l -> ms' !! x = mbufs s !! x).
  { intros x Hx Hxl. unfold hold_enqueue in Henq. destruct Hq as [Hc Ht].
    destruct l as [|q0 l0].
    - apply held_chain_nil_inv in Hc. rewrite Hc in Henq. simplify_eq.
      now rewrite lookup_insert_ne by congruence.
    - destruct (held_chain_cons_inv _ _ _ _ Hc) as [Hh _]. rewrite Hh in Henq.
      rewrite (Ht ltac:(discriminate)) in Henq.
      destruct (last (q0 :: l0)) as [t|] eqn:Hl; [|discriminate]. cbn in Henq.
      destruct (_ !! t) as [tmb|]; [|discriminate]. cbn in Henq. simplify_eq.
      assert (t ∈ q0 :: l0) by (now apply last_Some_elem_of).
      rewrite !lookup_insert_ne by congruence. reflexivity. }
  rewrite (maybe_hold_packet_eq s nh_p mbuf n mb Hn Hm), Hre, Hmc. cbn [orb].
  rewrite (proj2 (Z.ltb_lt _ _) Hlt), Henq. cbn.
  destruct (negb (has_flag n1 GR_IP6_NH_F_PENDING)); eexists _, _;
    (split; [reflexivity|]); cbn; rewrite lookup_insert_eq;
    (split; [reflexivity|]); (split; [exact Hq'|]); (split; [exact Hnum|]);
    (split; [|exact Hframe]); cbn; rewrite Hfl; auto.
Qed.

(** X16: two packets held one after the other for the same next hop are at
    the end of its hold queue in that order, and the count grew by two. The
    REACHABLE bit is taken to be another one than the PENDING bit. *)
Theorem maybe_hold_packet_fifo s nh_p m1 m2 n mb1 mb2 l :
  nexthops s !! nh_p = Some n ->
  mbufs s !! m1 = Some mb1 -> mbufs s !! m2 = Some mb2 ->
  held_queue (mbufs s) n l -> m1 ∉ l -> m2 ∉ l -> m1 ≠ m2 ->
  has_flag n GR_IP6_NH_F_REACHABLE = false ->
  Z.land GR_IP6_NH_F_PENDING GR_IP6_NH_F_REACHABLE = 0 ->
  rte_ipv6_addr_is_mcast (dst_addr mb1) = false ->
  rte_ipv6_addr_is_mcast (dst_addr mb2) = false ->
  held_pkts_num n + 1 < IP6_NH_MAX_HELD_PKTS ->
  exists s1 s2 n2,
    maybe_hold_packet s nh_p m1 = Some (HELD, s1)
    /\ maybe_hold_packet s1 nh_p m2 = Some (HELD, s2)
    /\ nexthops s2 !! nh_p = Some n2
    /\ held_queue (mbufs s2) n2 (l ++ [m1; m2])
    /\ held_pkts_num n2 = held_pkts_num n + 2.
Proof.
  intros Hn Hm1 Hm2 Hq H1 H2 Hne Hre Hbits Hmc1 Hmc2 Hlt.
  destruct (maybe_hold_packet_held s nh_p m1 n mb1 l Hn Hm1 Hq H1 Hre Hmc1 ltac:(lia))
    as (s1 & n1 & Hh1 & Hn1 & Hq1 & Hnum1 & Hfl1 & Hfr1).
  assert (Hre1 : has_flag n1 GR_IP6_NH_F_REACHABLE = false).
  { unfold has_flag in *. apply negb_false_iff, Z.eqb_eq in Hre.
    apply negb_false_iff, Z.eqb_eq.
    destruct Hfl1 as [-> | ->]; [assumption|].
    rewrite Z.land_lor_distr_l, Hre, Hbits. reflexivity. }
  assert (Hm2' : mbufs s1 !! m2 = Some mb2) by (rewrite Hfr1; auto).
  assert (H2' : m2 ∉ l ++ [m1]).
  { rewrite elem_of_app, list_elem_of_singleton. intros [?|?]; [contradiction|congruence]. }
  destruct (maybe_hold_packet_held s1 nh_p m2 n1 mb2 (l ++ [m1]) Hn1 Hm2' Hq1 H2' Hre1 Hmc2
              ltac:(lia))
    as (s2 & n2 & Hh2 & Hn2 & Hq2 & Hnum2 & _ & _).
  exists s1, s2, n2. rewrite <- app_assoc in Hq2.
  repeat split; try assumption; try apply Hq2. lia.
Qed.

(** *** Without LINK there is no promotion *)

Lemma maybe_hold_packet_no_link s nh_p mbuf status s' :
  Z.land GR_IP6_NH_F_PENDING GR_IP6_NH_F_LINK = 0 ->
  maybe_hold_packet s nh_p mbuf = Some (status, s') ->
  no_link (nexthops s) ->
  no_link (nexthops s') /\ fib s' = fib s /\ dom (nexthops s') = dom (nexthops s).
Proof.
  intros Hbits H Hno. unfold maybe_hold_packet in H.
  destruct (nexthops s !! nh_p) as [n|] eqn:Hn; [|discriminate]. cbn in H.
  destruct (mbufs s !! mbuf) as [mb|]; [|discriminate]. cbn in H.
  destruct (_ || _); [simplify_eq; auto|].
  destruct (_ <? _); [|simplify_eq; auto].
  destruct (hold_enqueue _ n mbuf) as [[ms n1]|] eqn:Henq; [|discriminate]. cbn in H.
  apply hold_enqueue_num in Henq as [_ Hfl].
  assert (Hl : has_flag n GR_IP6_NH_F_LINK = false) by (eapply Hno, Hn).
  assert (Hdom : dom (<[nh_p := n1]> (nexthops s)) = dom (nexthops s)).
  { apply dom_insert_lookup_L. rewrite Hn. eauto. }
  destruct (negb _); simplify_eq; cbn; (split; [|split; [reflexivity|]]).
  - intros p n' Hp. destruct (decide (p = nh_p)) as [->|Hne].
    + rewrite lookup_insert_eq in Hp. simplify_eq. unfold has_flag in *. cbn.
      rewrite Hfl. apply negb_false_iff, Z.eqb_eq in Hl. apply negb_false_iff, Z.eqb_eq.
      rewrite Z.land_lor_distr_l, Hl, Hbits. reflexivity.
    + rewrite lookup_insert_ne in Hp by congruence. eauto.
  - apply dom_insert_lookup_L. rewrite Hn. eauto.
  - intros p n' Hp. destruct (decide (p = nh_p)) as [->|Hne].
    + rewrite lookup_insert_eq in Hp. simplify_eq. unfold has_flag in *. now rewrite Hfl.
    + rewrite lookup_insert_ne in Hp by congruence. eauto.
  - exact Hdom.
Qed.

Lemma ip6_output_pkt_no_link edges s sent mbuf s' sent' :
  Z.land GR_IP6_NH_F_PENDING GR_IP6_NH_F_LINK = 0 ->
  ip6_output_pkt edges s sent mbuf = Some (s', sent') ->
  no_link (nexthops s) ->
  no_link (nexthops s') /\ fib s' = fib s /\ dom (nexthops s') = dom (nexthops s).
Proof.
  intros Hbits H Hno. unfold ip6_output_pkt in H.
  destruct (select_edge edges s mbuf) as [[edge|[nh0 ifc]]|]; [| |discriminate]; cbn in H.
  { simplify_eq. auto. }
  assert (Hp : promote s nh0 mbuf = Some (s, inr nh0) \/ promote s nh0 mbuf = None).
  { unfold promote. destruct (nexthops s !! nh0) as [n|] eqn:Hn; [|now right]. cbn.
    destruct (mbufs s !! mbuf) as [mb|]; [|now right]. cbn.
    rewrite (Hno _ _ Hn). now left. }
  destruct Hp as [Hp | Hp]; rewrite Hp in H; [|discriminate]. cbn in H.
  destruct (maybe_hold_packet s nh0 mbuf) as [[status s2]|] eqn:Hh; [|discriminate].
  cbn in H. destruct (maybe_hold_packet_no_link _ _ _ _ _ Hbits Hh Hno) as (Hno2 & Hf2 & Hd2).
  destruct status.
  - unfold prepare_eth in H.
    destruct (nexthops s2 !! nh0); [|discriminate]. cbn in H.
    destruct (mbufs s2 !! mbuf); [|discriminate]. cbn in H. now simplify_eq.
  - now simplify_eq.
  - now simplify_eq.
Qed.

Lemma ip6_output_loop_no_link edges objs : forall s sent0 s' sent,
  Z.land GR_IP6_NH_F_PENDING GR_IP6_NH_F_LINK = 0 ->
  ip6_output_loop edges s sent0 objs = Some (s', sent) ->
  no_link (nexthops s) ->
  fib s' = fib s /\ dom (nexthops s') = dom (nexthops s) /\ no_link (nexthops s').
Proof.
  induction objs as [|mbuf objs IH]; intros s sent0 s' sent Hbits H Hno; cbn in H.
  - simplify_eq. auto.
  - destruct (ip6_output_pkt edges s sent0 mbuf) as [[s1 sent1]|] eqn:Hp; [|discriminate].
    cbn in H. destruct (ip6_output_pkt_no_link _ _ _ _ _ _ Hbits Hp Hno) as (Hno1 & Hf1 & Hd1).
    destruct (IH _ _ _ _ Hbits H Hno1) as (Hf & Hd & Hno').
    split; [congruence|]. split; [congruence|assumption].
Qed.

(** X17: when no next hop of the store has LINK (and the PENDING bit is
    not part of the LINK bits), [ip6_output_process] promotes nothing: the
    route table is the one from before the burst, the store holds the same
    next-hop pointers, and still none has LINK. *)
Theorem ip6_output_process_no_link edges objs s s' sent :
  Z.land GR_IP6_NH_F_PENDING GR_IP6_NH_F_LINK = 0 ->
  ip6_output_process edges s objs = Some (s', sent) ->
  no_link (nexthops s) ->
  fib s' = fib s /\ dom (nexthops s') = dom (nexthops s) /\ no_link (nexthops s').
Proof. apply ip6_output_loop_no_link. Qed.

End Ip6Fifo.

(** ** The ip6_output node on sample packets *)
Section Ip6Runs.
Import Ip6Output.

#[local] Instance run_externals : Externals := sample_externals true 0.

Let ifc1 : iface := {| id := 1; type_id := 1 |}.

(** A packet for a PENDING next hop that holds the mbuf 5 is put behind it,
    with no second solicitation and no enqueue; a packet for a next hop with
    a full hold queue leaves on QUEUE_FULL. *)
Lemma hold_queue_discipline_witness :
  (exists s' n',
      ip6_output_pkt edges_init queued_state 0 0%nat = Some (s', 0)
      /\ nexthops s' !! 0%nat = Some n'
      /\ held_queue (mbufs s') n' [5%nat; 0%nat]
      /\ held_pkts_num n' = 2
      /\ trace s' = [])
  /\ (let s := sample_state true 0 (sample_nh 1 0 256) (sample_mbuf addr_a) in
      exists s', ip6_output_pkt edges_init s 0 0%nat = Some (s', 0)
                 /\ trace s' = [NodeEnqueue QUEUE_FULL 0%nat]
                 /\ mbufs s' = mbufs s).
Proof.
  split.
  - destruct (hold_queue_discipline edges_init queued_state 0 0%nat queued_state 0%nat ifc1
                queued_nh (sample_mbuf addr_a)) as (_ & Hheld & _).
    + exists 0%nat. split; reflexivity.
    + reflexivity.
    + reflexivity.
    + destruct (Hheld eq_refl eq_refl ltac:(reflexivity) [5%nat])
        as (s' & n' & _ & Hnh & Hq & Hnum & _ & Htr & _ & Hpkt).
      * split; [|reflexivity].
        apply (held_chain_cons _ _ (sample_mbuf addr_a)); [reflexivity|constructor].
      * intros Hin. apply list_elem_of_singleton in Hin. discriminate.
      * exists s', n'. split; [exact Hpkt|]. split; [rewrite Hnh; apply lookup_insert_eq|].
        split; [exact Hq|]. split; [exact Hnum|exact Htr].
  - intros s.
    destruct (hold_queue_discipline edges_init s 0 0%nat s 0%nat ifc1
                (sample_nh 1 0 256) (sample_mbuf addr_a)) as (_ & _ & Hfull).
    + exists 0%nat. split; reflexivity.
    + reflexivity.
    + reflexivity.
    + destruct Hfull as (_ & s' & Hpkt & Htr & _ & Hms & _);
        [reflexivity|reflexivity|cbn; lia|].
      exists s'. split; [exact Hpkt|]. split; [exact Htr|exact Hms].
Defined.

(** The last free slot of a hold queue is taken, and no more. *)
Lemma maybe_hold_packet_bound_witness :
  let s := sample_state true 0 (sample_nh 1 0 255) (sample_mbuf addr_a) in
  exists status s' n',
    maybe_hold_packet s 0%nat 0%nat = Some (status, s')
    /\ nexthops s' !! 0%nat = Some n'
    /\ 255 <= held_pkts_num n' <= 256.
Proof.
  intros s.
  destruct (maybe_hold_packet s 0%nat 0%nat) as [[status s']|] eqn:H;
    [|vm_compute in H; discriminate].
  destruct (maybe_hold_packet_bound s 0%nat 0%nat status s' (sample_nh 1 0 255) H eq_refl)
    as [(n' & Hn' & Hb) _].
  - cbn. lia.
  - exists status, s', n'. split; [reflexivity|]. split; [exact Hn'|exact Hb].
Defined.

(** A multicast packet is sent although its next hop is not REACHABLE: the
    stored mbuf gets the multicast MAC 33:33:00:00:00:01, the IPv6 ether-type
    and interface 1, and the trace the enqueue on ETH_OUTPUT. *)
Lemma ok_to_send_eth_output_witness :
  let s := sample_state true 0 (sample_nh 1 0 0) (sample_mbuf addr_mcast) in
  exists s3 mb',
    ip6_output_pkt edges_init s 0 0%nat = Some (s3, 1)
    /\ mbufs s3 !! 0%nat = Some mb'
    /\ dst (eth_data mb') = [0x33; 0x33; 0; 0; 0; 1]
    /\ ether_type (eth_data mb') = [0x86; 0xDD]
    /\ eth_iface (eth_data mb') = Some ifc1
    /\ trace s3 = [NodeEnqueue ETH_OUTPUT 0%nat].
Proof.
  intros s.
  destruct (ok_to_send_eth_output edges_init s 0 0%nat s 0%nat ifc1 (sample_nh 1 0 0)
              (sample_mbuf addr_mcast) s) as [Hsend Hmc].
  - exists 0%nat. split; reflexivity.
  - reflexivity.
  - reflexivity.
  - destruct (Hsend (Hmc eq_refl))
      as (_ & (s3 & mb' & Hpkt & Hmb & Hdst & Hty & Hif & _ & _ & _ & _ & Htr & _) & _).
    exists s3, mb'. repeat split; assumption.
Defined.

(** A packet for a neighbour on a connected route gets its own next hop and
    /128 route: the stored mbuf points to the new next hop 1 where it pointed
    to next hop 0, and the trace has the two control-plane calls. *)
Lemma promotion_of_link_packet_witness :
  let mb := sample_mbuf addr_b in
  let s := sample_state true 0 (sample_nh 1 16 0) mb in
  exists s3 mb',
    reaches_hold edges_init s 0%nat s3 1%nat ifc1
    /\ nh mb = Some 0%nat
    /\ mbufs s3 !! 0%nat = Some mb'
    /\ nh mb' = Some 1%nat
    /\ trace s3 = [NexthopNew 0 1 addr_b (Some 1%nat); RouteInsert 0 addr_b 128 1 0].
Proof.
  intros mb s.
  pose proof (promotion_of_link_packet edges_init s 0 0%nat 0%nat ifc1 (sample_nh 1 16 0) mb
                eq_refl eq_refl eq_refl eq_refl eq_refl ltac:(discriminate)) as H.
  destruct H as (s3 & mb' & Hr & Hold & Hmb & Hnh & _ & _ & _ & _ & Htr & _).
  exists s3, mb'. repeat split; assumption.
Defined.

(** C4, as stated, fails: the next hop has LINK, the destination is unicast
    and differs from the next hop's address, but the interface is of a type
    with a registered tunnel node (the exit of line 104): the packet is
    enqueued on the tunnel edge and nothing else happens, no next hop is
    created, no route is inserted and the mbuf's [nh] stays. *)
Lemma link_packet_on_tunnel_not_promoted :
  let n := sample_nh 8 16 0 in
  let mb := sample_mbuf addr_b in
  let s := sample_state true 0 n mb in
  ip6_output_add_tunnel edges_init 2 "ipip_output" = Returned edges_tunnel
  /\ mbufs s !! 0%nat = Some mb /\ nh mb = Some 0%nat /\ nexthops s !! 0%nat = Some n
  /\ has_flag n GR_IP6_NH_F_LINK = true
  /\ rte_ipv6_addr_is_mcast (dst_addr mb) = false
  /\ dst_addr mb ≠ ip n
  /\ ip6_output_pkt edges_tunnel s 0 0%nat = Some (enqueue s EDGE_COUNT 0%nat, 0)
  /\ exists s', ip6_output_pkt edges_tunnel s 0 0%nat = Some (s', 0)
                /\ trace s' = [NodeEnqueue EDGE_COUNT 0%nat]
                /\ nexthops s' = nexthops s /\ mbufs s' = mbufs s /\ fib s' = fib s.
Proof.
  repeat split; try reflexivity; [discriminate|].
  eexists. split; [reflexivity|]. repeat split.
Qed.

End Ip6Runs.

Section Ip6RunsFailing.
Import Ip6Output.

#[local] Instance run_externals_noalloc : Externals := sample_externals false 0.

(** When the allocation fails the packet leaves on ERROR, after the failed
    call, and the stored mbuf still points to the connected-route next
    hop. *)
Lemma promotion_failure_keeps_nh_witness :
  let mb := sample_mbuf addr_b in
  let s := sample_state false 0 (sample_nh 1 16 0) mb in
  exists s2, ip6_output_pkt edges_init s 0 0%nat = Some (s2, 0)
             /\ trace s2 = [NexthopNew 0 1 addr_b None; NodeEnqueue ERROR 0%nat]
             /\ mbufs s2 !! 0%nat = Some mb /\ nh mb = Some 0%nat.
Proof.
  intros mb s.
  destruct (promotion_failure_keeps_nh edges_init s 0 0%nat 0%nat
              {| id := 1; type_id := 1 |} (sample_nh 1 16 0) mb
              eq_refl eq_refl eq_refl eq_refl eq_refl ltac:(discriminate))
    as (s' & res & Hp & Hnh & Hres).
  assert (res = inl ERROR /\ trace s' = [NexthopNew 0 1 addr_b None]) as [-> Htr'].
  { vm_compute in Hp. injection Hp as <- <-. split; reflexivity. }
  destruct Hres as (_ & _ & _ & s2 & Hpkt & Htr & Hmb & _).
  exists s2. split; [exact Hpkt|]. split; [rewrite Htr, Htr'; reflexivity|].
  split; [exact Hmb|exact Hnh].
Defined.

End Ip6RunsFailing.

(** ** The ip6_output node on a sample burst *)
Section Ip6BurstRuns.
Import Ip6Output.

#[local] Instance burst_externals : Externals := sample_externals true 0.

Let ifc1 : iface := {| id := 1; type_id := 1 |}.

Lemma ip6_output_process_enqueues_sublist_witness :
  match ip6_output_process edges_init burst_state [0; 1; 2; 3; 4]%nat with
  | Some (s', _) =>
      exists evs, trace s' = trace burst_state ++ evs
                  /\ (enqueued evs).*2 `sublist_of` [0; 1; 2; 3; 4]%nat
  | None => False
  end.
Proof.
  destruct (ip6_output_process edges_init burst_state [0; 1; 2; 3; 4]%nat)
    as [[s' sent]|] eqn:H; [|vm_compute in H; discriminate].
  exact (ip6_output_process_enqueues_sublist _ _ _ _ _ H).
Defined.

Lemma ip6_output_process_sent_witness :
  match ip6_output_process edges_init burst_state [0; 1; 2; 3; 4]%nat with
  | Some (s', sent) =>
      exists evs, trace s' = trace burst_state ++ evs
                  /\ sent = Z.of_nat (n_eth_output evs)
  | None => False
  end.
Proof.
  destruct (ip6_output_process edges_init burst_state [0; 1; 2; 3; 4]%nat)
    as [[s' sent]|] eqn:H; [|vm_compute in H; discriminate].
  destruct (ip6_output_process_sent _ _ _ _ _ H) as (evs & Ht & _ & Hsent).
  exists evs. split; [exact Ht|]. apply Hsent. cbn. lia.
Defined.

Lemma burst_state_bounded : hold_bounded (nexthops burst_state).
Proof.
  intros p n H. cbn in H.
  apply lookup_insert_Some in H as [[_ <-] | [_ H]]; [cbn; lia|].
  apply lookup_insert_Some in H as [[_ <-] | [_ H]]; [cbn; lia|].
  now rewrite lookup_empty in H.
Qed.

Lemma ip6_output_process_keeps_bound_witness :
  match ip6_output_process edges_init burst_state [0; 1; 2; 3; 4]%nat with
  | Some (s', _) => hold_bounded (nexthops s')
  | None => False
  end.
Proof.
  destruct (ip6_output_process edges_init burst_state [0; 1; 2; 3; 4]%nat)
    as [[s' sent]|] eqn:H; [|vm_compute in H; discriminate].
  refine (ip6_output_process_keeps_bound _ _ _ _ _ _ H burst_state_bounded).
  intros nhs vrf ifc a Hb p n Hp. cbn in Hp.
  apply lookup_insert_Some in Hp as [[_ <-] | [_ Hp]]; [cbn; lia|]. exact (Hb p n Hp).
Defined.

Lemma ip6_output_pkt_early_exit_witness :
  exists s', ip6_output_pkt edges_init burst_state 0 2%nat = Some (s', 0)
             /\ trace s' = [NodeEnqueue NO_ROUTE 2%nat]
             /\ nexthops s' = nexthops burst_state /\ mbufs s' = mbufs burst_state.
Proof.
  destruct (ip6_output_pkt_early_exit edges_init burst_state 0 2%nat
              (burst_mbuf addr_a None) eq_refl) as [Hnone _].
  destruct (Hnone eq_refl) as (s' & Hpkt & Htr & Hnhs & Hms & _).
  exists s'. repeat split; assumption.
Defined.

Lemma add_tunnel_redirects_witness :
  let s := sample_state true 0 (sample_nh 8 16 0) (sample_mbuf addr_b) in
  exists s', ip6_output_pkt edges_tunnel s 0 0%nat = Some (s', 0)
             /\ trace s' = [NodeEnqueue EDGE_COUNT 0%nat]
             /\ nexthops s' = nexthops s /\ mbufs s' = mbufs s.
Proof.
  intros s.
  assert (Hne : gr_node_attach_parent "ip6_output" "ipip_output" ≠ ETH_OUTPUT) by discriminate.
  destruct (add_tunnel_redirects edges_init 2 "ipip_output" edges_tunnel s 0 0%nat
              (sample_mbuf addr_b) 0%nat (sample_nh 8 16 0) {| id := 8; type_id := 2 |}
              eq_refl Hne eq_refl eq_refl eq_refl eq_refl) as [Hsame _].
  destruct (Hsame eq_refl) as (s' & Hpkt & Htr & Hnhs & Hms & _).
  exists s'. repeat split; assumption.
Defined.

Lemma add_tunnel_twice_aborts_witness :
  (exists msg, ip6_output_add_tunnel edges_tunnel 2 "gre_output" = Aborted msg)
  /\ length edges_tunnel = 128%nat.
Proof.
  assert (Hne : gr_node_attach_parent "ip6_output" "ipip_output" ≠ ETH_OUTPUT) by discriminate.
  assert (Hadd : ip6_output_add_tunnel edges_init 2 "ipip_output" = Returned edges_tunnel)
    by reflexivity.
  destruct (add_tunnel_twice_aborts edges_init 2 "ipip_output" edges_tunnel "gre_output"
              Hadd Hne) as (Habort & Hlen & _).
  split; [exact Habort|exact Hlen].
Defined.

(** Two packets for the same unresolved next hop in a row: one solicitation. *)
Lemma maybe_hold_packet_solicits_once_witness :
  match maybe_hold_packet burst_state 1%nat 1%nat with
  | Some (HELD, s1) =>
      match maybe_hold_packet s1 1%nat 3%nat with
      | Some (_, s2) => trace s2 = trace s1
      | None => False
      end
  | _ => False
  end.
Proof.
  destruct (maybe_hold_packet burst_state 1%nat 1%nat) as [[[] s1]|] eqn:H1;
    try (vm_compute in H1; discriminate).
  destruct (maybe_hold_packet s1 1%nat 3%nat) as [[status s2]|] eqn:H2.
  - refine (proj2 (maybe_hold_packet_solicits_once _ _ _ _ _ _ _ _ H1 H2)). discriminate.
  - vm_compute in H1. injection H1 as <-. vm_compute in H2. discriminate.
Defined.

(** Mbufs 1 and 3 are held for next hop 1, in this order. *)
Lemma maybe_hold_packet_fifo_witness :
  exists s1 s2 n2,
    maybe_hold_packet burst_state 1%nat 1%nat = Some (HELD, s1)
    /\ maybe_hold_packet s1 1%nat 3%nat = Some (HELD, s2)
    /\ nexthops s2 !! 1%nat = Some n2
    /\ held_queue (mbufs s2) n2 [1%nat; 3%nat]
    /\ held_pkts_num n2 = 2.
Proof.
  refine (maybe_hold_packet_fifo burst_state 1%nat 1%nat 3%nat burst_nh1
            (burst_mbuf addr_b (Some 1%nat)) (burst_mbuf addr_b (Some 1%nat)) []
            eq_refl eq_refl eq_refl _ _ _ _ eq_refl eq_refl eq_refl eq_refl eq_refl).
  - split; [constructor|intros H; now destruct H].
  - apply not_elem_of_nil.
  - apply not_elem_of_nil.
  - discriminate.
Defined.

Lemma burst_state_no_link : no_link (nexthops burst_state).
Proof.
  intros p n H. cbn in H.
  apply lookup_insert_Some in H as [[_ <-] | [_ H]]; [reflexivity|].
  apply lookup_insert_Some in H as [[_ <-] | [_ H]]; [reflexivity|].
  now rewrite lookup_empty in H.
Qed.

Lemma ip6_output_process_no_link_witness :
  match ip6_output_process edges_init burst_state [0; 1; 2; 3; 4]%nat with
  | Some (s', _) => fib s' = fib burst_state
                    /\ dom (nexthops s') = dom (nexthops burst_state)
  | None => False
  end.
Proof.
  destruct (ip6_output_process edges_init burst_state [0; 1; 2; 3; 4]%nat)
    as [[s' sent]|] eqn:H; [|vm_compute in H; discriminate].
  assert (Hbits : Z.land GR_IP6_NH_F_PENDING GR_IP6_NH_F_LINK = 0) by reflexivity.
  destruct (ip6_output_process_no_link _ _ _ _ _ Hbits H burst_state_no_link)
    as (Hf & Hd & _).
  split; [exact Hf|exact Hd].
Defined.

End Ip6BurstRuns.

Section Ip6WideType.
Import Ip6Output.

#[local] Instance wide_externals : Externals := externals_with_type 200.

(** An interface of type 200: the read of the table is outside it. *)
Lemma ip6_output_pkt_type_outside_table_witness :
  ip6_output_pkt edges_init (state_with_type 200) 0 0%nat = None.
Proof.
  refine (proj2 (ip6_output_pkt_type_outside_table edges_init (state_with_type 200) 0 0%nat
                   (sample_mbuf addr_a) 0%nat (sample_nh 1 2 0) {| id := 1; type_id := 200 |}
                   eq_refl eq_refl eq_refl eq_refl eq_refl _)).
  cbn. lia.
Defined.

End Ip6WideType.

(** ** Properties of the queue assignment *)
Section WorkerProperties.
Import Worker.

(** The model passes the ten tests of worker_test.c. *)
Lemma worker_test_passes : worker_test = true.
Proof. vm_compute. reflexivity. Qed.

(** *** Lookups *)

Lemma worker_find_None ws cpu :
  worker_find ws cpu = None <-> cpu ∉ cpu_id <$> ws.
Proof.
  unfold worker_find. induction ws as [|w ws IH]; cbn.
  - split; [intros _; apply not_elem_of_nil|reflexivity].
  - case_bool_decide as Hc.
    + split; [discriminate|]. intros Hn. exfalso. apply Hn. subst. apply list_elem_of_here.
    + rewrite IH, not_elem_of_cons. intuition.
Qed.

Lemma worker_find_Some ws cpu w :
  worker_find ws cpu = Some w -> w ∈ ws /\ cpu_id w = cpu.
Proof.
  unfold worker_find. intros H. apply find_some in H as [Hin Hb].
  apply bool_decide_eq_true_1 in Hb. split; [now apply list_elem_of_In|assumption].
Qed.

Lemma rxq_owner_Some ws p r w : rxq_owner ws p r = Some w -> w ∈ ws.
Proof. unfold rxq_owner. intros H. apply find_some in H as [Hin _]. now apply list_elem_of_In. Qed.

Lemma rxq_move_cpu_id p r cpu src w : cpu_id (rxq_move p r cpu src w) = cpu_id w.
Proof. unfold rxq_move. repeat case_bool_decide; reflexivity. Qed.

Lemma rxq_move_txqs p r cpu src w : txqs (rxq_move p r cpu src w) = txqs w.
Proof. unfold rxq_move. repeat case_bool_decide; reflexivity. Qed.

Lemma fmap_cpu_id_rxq_move p r cpu src (ws : list worker) :
  cpu_id <$> (rxq_move p r cpu src <$> ws) = cpu_id <$> ws.
Proof.
  rewrite <- list_fmap_compose. apply list_fmap_ext. intros _ w _. apply rxq_move_cpu_id.
Qed.

Lemma fmap_cpu_id_destroy c (ws : list worker) :
  cpu_id <$> worker_destroy c ws = filter (λ x, x ≠ c) (cpu_id <$> ws).
Proof.
  unfold worker_destroy. induction ws as [|w ws IH]; [reflexivity|].
  rewrite fmap_cons, !filter_cons.
  destruct (decide (cpu_id w ≠ c)); [rewrite fmap_cons|]; now rewrite IH.
Qed.

Lemma fmap_cpu_id_renumber ps (ws : list worker) : cpu_id <$> txq_renumber ps ws = cpu_id <$> ws.
Proof.
  unfold txq_renumber. apply list_eq. intros i.
  rewrite !list_lookup_fmap, list_lookup_imap. now destruct (ws !! i).
Qed.

(** *** Validation *)

(** C6: an unknown port or a queue id not below the port's [n_rxq] gives
    [-ENODEV]; for a valid queue, the main CPU gives [-EBUSY] and another CPU
    outside the allowance gives [-ERANGE]; and whenever the call does not
    return 0 the state, ports and workers with their [rxqs] and [txqs], is the
    one before the call. *)
Theorem rxq_assign_validation (e : env) (s : state) (p r cpu : nat) :
  (port_find (ports s) p = None
   \/ (exists prt, port_find (ports s) p = Some prt /\ (n_rxq prt <= r)%nat) ->
     worker_rxq_assign e s p r cpu = (- ENODEV, s))
  /\ (forall prt, port_find (ports s) p = Some prt -> (r < n_rxq prt)%nat ->
        cpu = main_lcore e ->
        worker_rxq_assign e s p r cpu = (- EBUSY, s))
  /\ (forall prt, port_find (ports s) p = Some prt -> (r < n_rxq prt)%nat ->
        cpu ≠ main_lcore e -> cpu_allowed e cpu = false ->
        worker_rxq_assign e s p r cpu = (- ERANGE, s))
  /\ (forall ret s', worker_rxq_assign e s p r cpu = (ret, s') -> ret ≠ 0 ->
        s' = s /\ (ret = - ENODEV \/ ret = - EBUSY \/ ret = - ERANGE)).
Proof.
  unfold worker_rxq_assign. repeat split.
  - intros [-> | (prt & -> & Hr)]; [reflexivity|].
    now rewrite bool_decide_eq_true_2.
  - intros prt -> Hr ->.
    rewrite bool_decide_eq_false_2 by lia. now rewrite bool_decide_eq_true_2.
  - intros prt -> Hr Hm Ha.
    rewrite bool_decide_eq_false_2 by lia. rewrite bool_decide_eq_false_2 by assumption.
    now rewrite Ha.
  - destruct (port_find (ports s) p); [|intros; now simplify_eq].
    repeat (case_bool_decide || destruct (negb _)); try (intros; now simplify_eq).
    destruct (rxq_reassign p r cpu (workers s)) as [ws []]; intros; now simplify_eq.
  - destruct (port_find (ports s) p); [|intros; simplify_eq; auto].
    repeat (case_bool_decide || destruct (negb _)); try (intros; simplify_eq; auto).
    destruct (rxq_reassign p r cpu (workers s)) as [ws []]; intros; now simplify_eq.
Qed.

(** *** A new worker *)

Lemma txq_renumber_cons ps w ws :
  txq_renumber ps (w :: ws) =
    set_txqs w (txqs_of ps 0) :: imap (λ i w', set_txqs w' (txqs_of ps (S i))) ws.
Proof. reflexivity. Qed.

Lemma fmap_cpu_id_imap (f : nat -> worker -> worker) (ws : list worker) :
  (forall i w, cpu_id (f i w) = cpu_id w) -> cpu_id <$> imap f ws = cpu_id <$> ws.
Proof.
  intros Hf. apply list_eq. intros i.
  rewrite !list_lookup_fmap, list_lookup_imap. destruct (ws !! i); cbn; [|reflexivity].
  now rewrite Hf.
Qed.

Lemma rxq_move_new p r cpu src :
  rxq_move p r cpu src {| cpu_id := cpu; rxqs := []; txqs := [] |}
  = {| cpu_id := cpu; rxqs := [q p r]; txqs := [] |}.
Proof. unfold rxq_move. cbn. now rewrite bool_decide_eq_true_2. Qed.

(** When no worker runs on [cpu], [rxq_reassign] puts a new one, owning the
    queue alone, in front of the workers that stay. *)
Lemma rxq_reassign_new p r cpu ws :
  worker_find ws cpu = None ->
  exists rest,
    rxq_reassign p r cpu ws = ({| cpu_id := cpu; rxqs := [q p r]; txqs := [] |} :: rest, true)
    /\ (cpu_id <$> rest = cpu_id <$> ws
        \/ exists src, rxq_owner ws p r = Some src
                       /\ cpu_id <$> rest = filter (λ c, c ≠ cpu_id src) (cpu_id <$> ws)).
Proof.
  intros Hnone. unfold rxq_reassign. rewrite Hnone, bool_decide_eq_true_2 by reflexivity.
  rewrite fmap_cons, rxq_move_new.
  destruct (rxq_owner ws p r) as [src|] eqn:Hsrc.
  - case_bool_decide.
    + assert (cpu ≠ cpu_id src) as Hne.
      { intros ->. apply rxq_owner_Some in Hsrc. apply worker_find_None in Hnone.
        apply Hnone. apply list_elem_of_fmap. eauto. }
      unfold worker_destroy. rewrite filter_cons_True by exact Hne.
      eexists. split; [reflexivity|]. right. exists src. split; [reflexivity|].
      fold (worker_destroy (cpu_id src) (rxq_move p r cpu (cpu_id <$> Some src) <$> ws)).
      now rewrite fmap_cpu_id_destroy, fmap_cpu_id_rxq_move.
    + eexists. split; [reflexivity|]. left. apply fmap_cpu_id_rxq_move.
  - eexists. split; [reflexivity|]. left. apply fmap_cpu_id_rxq_move.
Qed.

(** In the model a created worker is the head of the worker list: it owns
    the queue alone and has TX queue id 0 on every port; the workers behind
    it are those from before the call (all of them, or all but a destroyed
    source) in their order, and the one at place [i] behind the head has TX
    queue id [i + 1] on every port. *)
Lemma new_worker_at_head (e : env) (s : state) (p r cpu : nat) (s' : state) :
  worker_rxq_assign e s p r cpu = (0, s') ->
  worker_find (workers s) cpu = None ->
  exists rest,
    workers s' = {| cpu_id := cpu; rxqs := [q p r]; txqs := txqs_of (ports s) 0 |} :: rest
    /\ (forall i w, rest !! i = Some w -> txqs w = txqs_of (ports s) (S i))
    /\ (cpu_id <$> rest = cpu_id <$> workers s
        \/ exists src, rxq_owner (workers s) p r = Some src
                       /\ cpu_id <$> rest
                          = filter (λ c, c ≠ cpu_id src) (cpu_id <$> workers s)).
Proof.
  unfold worker_rxq_assign. intros H Hnone.
  destruct (port_find (ports s) p); [|discriminate].
  case_bool_decide; [discriminate|]. case_bool_decide; [discriminate|].
  destruct (negb _); [discriminate|].
  case_bool_decide as Hown.
  { exfalso. destruct (rxq_owner (workers s) p r) as [src|] eqn:Hsrc; [|discriminate].
    cbn in Hown. apply rxq_owner_Some in Hsrc. apply worker_find_None in Hnone.
    apply Hnone. apply list_elem_of_fmap. exists src. split; [congruence|assumption]. }
  destruct (rxq_reassign_new p r cpu (workers s) Hnone) as (rest & Hre & Hcpus).
  rewrite Hre in H. simplify_eq. cbn [workers]. rewrite txq_renumber_cons.
  eexists. split; [reflexivity|]. split.
  - intros i w Hi. rewrite list_lookup_imap in Hi.
    destruct (rest !! i); cbn in Hi; now simplify_eq.
  - rewrite fmap_cpu_id_imap by reflexivity. exact Hcpus.
Qed.

Lemma txqs_of_port_id (ps : list port) (i : nat) : port_id <$> txqs_of ps i = pid <$> ps.
Proof. induction ps as [|x ps IH]; [reflexivity|]. cbn. now f_equal. Qed.

Lemma txqs_of_queue_id (ps : list port) (i : nat) (m : queue_map) :
  m ∈ txqs_of ps i -> queue_id m = i.
Proof.
  induction ps as [|x ps IH]; cbn; intros Hm.
  - now apply elem_of_nil in Hm.
  - apply elem_of_cons in Hm as [-> | Hm]; [reflexivity|now apply IH].
Qed.

(** C1, as the model and worker_test.c have it: when [worker_rxq_assign]
    succeeds for a CPU without a worker, TX queue ids are renumbered. The
    worker found on that CPU afterwards owns the queue alone and has one TX
    entry per known port, each with queue id 0. Every other worker is one
    from before the call and has one TX entry per known port, all with the
    same queue id, which is at least 1 and below the worker count. Nothing
    here depends on the place of a worker in the list. *)
Theorem new_worker_renumbers_txqs (e : env) (s : state) (p r cpu : nat) (s' : state) :
  worker_rxq_assign e s p r cpu = (0, s') ->
  worker_find (workers s) cpu = None ->
  (exists w m,
      worker_find (workers s') cpu = Some w
      /\ rxqs w = [m] /\ port_id m = p /\ queue_id m = r
      /\ port_id <$> txqs w = pid <$> ports s
      /\ forall m', m' ∈ txqs w -> queue_id m' = 0%nat)
  /\ (forall w', w' ∈ workers s' -> cpu_id w' ≠ cpu ->
        cpu_id w' ∈ cpu_id <$> workers s
        /\ exists i, (1 <= i < worker_count s')%nat
                     /\ port_id <$> txqs w' = pid <$> ports s
                     /\ forall m', m' ∈ txqs w' -> queue_id m' = i).
Proof.
  intros H Hnone.
  destruct (new_worker_at_head e s p r cpu s' H Hnone) as (rest & Hw & Htx & Hcpus).
  split.
  - eexists _, (q p r). unfold worker_find. rewrite Hw. cbn.
    rewrite bool_decide_eq_true_2 by reflexivity.
    split; [reflexivity|]. cbn.
    split; [reflexivity|]. split; [reflexivity|]. split; [reflexivity|].
    split; [apply txqs_of_port_id|apply txqs_of_queue_id].
  - intros w' Hin Hne. rewrite Hw in Hin.
    apply elem_of_cons in Hin as [-> | Hin]; [now cbn in Hne|].
    split.
    + assert (Hc : cpu_id w' ∈ cpu_id <$> rest).
      { apply list_elem_of_fmap. exists w'. split; [reflexivity|assumption]. }
      destruct Hcpus as [<- | (src & _ & Heq)]; [assumption|].
      rewrite Heq in Hc. now apply list_elem_of_filter in Hc as [_ ?].
    + apply list_elem_of_lookup in Hin as [i Hi].
      exists (S i). unfold worker_count. rewrite Hw. cbn.
      pose proof (lookup_lt_Some _ _ _ Hi).
      split; [lia|]. rewrite (Htx i w' Hi).
      split; [apply txqs_of_port_id|apply txqs_of_queue_id].
Qed.

(** *** The symmetric TX maps *)

Lemma index_of_lookup (l : list nat) : forall i c,
  NoDup l -> l !! i = Some c -> index_of c l = i.
Proof.
  induction l as [|x l IH]; intros i c Hnd Hi; [discriminate|].
  apply NoDup_cons in Hnd as [Hx Hnd]. cbn.
  destruct i as [|i]; cbn in Hi.
  - simplify_eq. now rewrite bool_decide_eq_true_2.
  - rewrite bool_decide_eq_false_2.
    + f_equal. now apply IH.
    + intros ->. apply Hx. eapply list_elem_of_lookup_2, Hi.
Qed.

(** In a renumbered TX map each known port has one entry. *)
Lemma entries_for_txqs_of (ps : list port) (i : nat) (prt : port) :
  NoDup (pid <$> ps) -> prt ∈ ps ->
  entries_for (pid prt) (txqs_of ps i) = [q (pid prt) i].
Proof.
  unfold entries_for, txqs_of. induction ps as [|x ps IH]; intros Hnd Hin.
  - now apply elem_of_nil in Hin.
  - rewrite fmap_cons in Hnd. apply NoDup_cons in Hnd as [Hx Hnd].
    cbn [map]. rewrite filter_cons. cbn [port_id q].
    destruct (decide (pid x = pid prt)) as [Heq|Hne].
    + rewrite Heq. f_equal.
      clear IH Hin Hnd. rewrite Heq in Hx.
      induction ps as [|y ps IH]; [reflexivity|].
      rewrite fmap_cons in Hx. apply not_elem_of_cons in Hx as [Hy Hx].
      cbn [map]. rewrite filter_cons_False by (cbn; congruence). now apply IH.
    + apply elem_of_cons in Hin as [-> | Hin]; [contradiction|]. now apply IH.
Qed.

(** After a renumbering, the TX maps are symmetric for the places in the
    worker list. *)
Lemma tx_symmetric_renumber (ps : list port) (ws : list worker) (n : nat) :
  NoDup (cpu_id <$> ws) -> NoDup (pid <$> ps) ->
  tx_symmetric {| ports := (λ x, set_n_txq x n) <$> ps; workers := txq_renumber ps ws |}
    (λ c, index_of c (cpu_id <$> ws)).
Proof.
  intros Hcpu Hpid.
  assert (Hel : forall w, w ∈ txq_renumber ps ws ->
            exists i w0, ws !! i = Some w0 /\ w = set_txqs w0 (txqs_of ps i)
                         /\ index_of (cpu_id w) (cpu_id <$> ws) = i).
  { intros w Hw. apply list_elem_of_lookup in Hw as [i Hi].
    unfold txq_renumber in Hi. rewrite list_lookup_imap in Hi.
    destruct (ws !! i) as [w0|] eqn:Hw0; [|discriminate]. cbn in Hi. simplify_eq.
    exists i, w0. split; [exact Hw0|]. split; [reflexivity|]. cbn [cpu_id set_txqs].
    apply index_of_lookup; [assumption|]. now rewrite list_lookup_fmap, Hw0. }
  unfold tx_symmetric, worker_count. cbn [ports workers]. repeat split.
  - intros w prt Hw Hprt.
    destruct (Hel w Hw) as (i & w0 & _ & -> & Hidx).
    apply list_elem_of_fmap in Hprt as (prt0 & -> & Hprt0).
    exists (q (pid prt0) i). split; [|now rewrite Hidx].
    cbn [pid set_n_txq txqs set_txqs]. now apply entries_for_txqs_of.
  - intros w Hw. destruct (Hel w Hw) as (i & w0 & Hi & _ & ->).
    unfold txq_renumber. rewrite length_imap. eapply lookup_lt_Some, Hi.
  - intros w1 w2 Hw1 Hw2 Heq.
    destruct (Hel w1 Hw1) as (i1 & u1 & Hi1 & -> & Hx1).
    destruct (Hel w2 Hw2) as (i2 & u2 & Hi2 & -> & Hx2).
    rewrite Hx1, Hx2 in Heq. subst i2. congruence.
  - intros i Hi. unfold txq_renumber in Hi. rewrite length_imap in Hi.
    destruct (lookup_lt_is_Some_2 ws i Hi) as [w0 Hw0].
    exists (set_txqs w0 (txqs_of ps i)). split.
    + apply list_elem_of_lookup. exists i. unfold txq_renumber.
      now rewrite list_lookup_imap, Hw0.
    + cbn [cpu_id set_txqs]. apply index_of_lookup; [assumption|].
      now rewrite list_lookup_fmap, Hw0.
Qed.

(** A move between workers that stay leaves symmetric TX maps symmetric,
    for the same indices. *)
Lemma tx_symmetric_move (ps : list port) (ws : list worker) (g : worker -> worker) idx :
  (forall w, cpu_id (g w) = cpu_id w) -> (forall w, txqs (g w) = txqs w) ->
  tx_symmetric {| ports := ps; workers := ws |} idx ->
  tx_symmetric {| ports := ps; workers := g <$> ws |} idx.
Proof.
  intros Hc Ht (H1 & H2 & H3 & H4). unfold tx_symmetric, worker_count in *.
  cbn [ports workers] in *. rewrite length_fmap. repeat split.
  - intros w' prt Hw' Hprt. apply list_elem_of_fmap in Hw' as (w & -> & Hw).
    rewrite Ht, Hc. now apply H1.
  - intros w' Hw'. apply list_elem_of_fmap in Hw' as (w & -> & Hw). rewrite Hc. now apply H2.
  - intros w1' w2' Hw1 Hw2 Heq.
    apply list_elem_of_fmap in Hw1 as (w1 & -> & Hw1).
    apply list_elem_of_fmap in Hw2 as (w2 & -> & Hw2).
    rewrite !Hc in Heq. f_equal. now apply H3.
  - intros i Hi. destruct (H4 i Hi) as (w & Hw & Hidx).
    exists (g w). split; [apply list_elem_of_fmap; eauto|]. now rewrite Hc.
Qed.

(** What [rxq_reassign] does to the list of CPU ids: without a change of
    the worker count the workers are the same, moved queue apart; with one,
    the list of CPU ids is another one; in both cases no CPU id is repeated. *)
Lemma rxq_reassign_cpus p r cpu (ws ws' : list worker) (reconfig : bool) :
  rxq_reassign p r cpu ws = (ws', reconfig) ->
  cpu_id <$> rxq_owner ws p r ≠ Some cpu ->
  NoDup (cpu_id <$> ws) ->
  NoDup (cpu_id <$> ws')
  /\ (if reconfig then cpu_id <$> ws' ≠ cpu_id <$> ws
      else ws' = rxq_move p r cpu (cpu_id <$> rxq_owner ws p r) <$> ws).
Proof.
  unfold rxq_reassign. intros H Hsrc Hnd.
  assert (Hlen : forall c (l : list nat), c :: l ≠ l).
  { intros c l Heq. apply (f_equal length) in Heq. cbn in Heq. lia. }
  destruct (bool_decide (worker_find ws cpu = None)) eqn:Hcr.
  - apply bool_decide_eq_true_1, worker_find_None in Hcr.
    assert (Hnd1 : NoDup (cpu :: (cpu_id <$> ws))) by (apply NoDup_cons; auto).
    destruct (rxq_owner ws p r) as [w|] eqn:Hw.
    + assert (Hne : cpu ≠ cpu_id w) by (cbn in Hsrc; congruence).
      destruct (bool_decide (rxqs (rxq_remove p r w) = [])); simplify_eq.
      * rewrite fmap_cpu_id_destroy, fmap_cpu_id_rxq_move, fmap_cons. cbn [cpu_id].
        split; [now apply NoDup_filter|].
        rewrite filter_cons_True by exact Hne. intros Heq.
        apply Hcr. rewrite <- Heq. apply list_elem_of_here.
      * rewrite fmap_cpu_id_rxq_move, fmap_cons. cbn [cpu_id]. split; [assumption|apply Hlen].
    + simplify_eq. rewrite fmap_cpu_id_rxq_move, fmap_cons. cbn [cpu_id].
      split; [assumption|apply Hlen].
  - destruct (rxq_owner ws p r) as [w|] eqn:Hw.
    + assert (Hin : cpu_id w ∈ cpu_id <$> ws).
      { apply list_elem_of_fmap. exists w. split; [reflexivity|]. eapply rxq_owner_Some, Hw. }
      destruct (bool_decide (rxqs (rxq_remove p r w) = [])); simplify_eq.
      * rewrite fmap_cpu_id_destroy, fmap_cpu_id_rxq_move.
        split; [now apply NoDup_filter|].
        intros Heq. rewrite <- Heq in Hin. apply list_elem_of_filter in Hin as [Hc _].
        now apply Hc.
      * rewrite fmap_cpu_id_rxq_move. split; [assumption|reflexivity].
    + simplify_eq. rewrite fmap_cpu_id_rxq_move. split; [assumption|reflexivity].
Qed.

(** C5: from a state in which CPU ids and port ids are unique and the TX
    maps are symmetric for the indices [idx], a successful [worker_rxq_assign]
    leads to a state in which they are unique again and the TX maps are
    symmetric for some indices [idx']: every live worker has exactly one TX
    entry per known port, its queue id is the worker's index, and the indices
    map the live workers one-to-one onto the numbers below [worker_count].
    The indices stay as they were when the call did not change the list of
    CPU ids. *)
Theorem tx_symmetric_preserved (e : env) (s : state) (p r cpu : nat) (s' : state) idx :
  registries_wf s ->
  tx_symmetric s idx ->
  worker_rxq_assign e s p r cpu = (0, s') ->
  registries_wf s'
  /\ exists idx',
       tx_symmetric s' idx'
       /\ (cpu_id <$> workers s' = cpu_id <$> workers s -> idx' = idx).
Proof.
  intros [Hcpu Hpid] Hsym. unfold worker_rxq_assign. intros H.
  destruct (port_find (ports s) p); [|discriminate].
  case_bool_decide; [discriminate|]. case_bool_decide; [discriminate|].
  destruct (negb _); [discriminate|].
  case_bool_decide as Hown.
  { simplify_eq. split; [split; assumption|]. exists idx. split; [assumption|reflexivity]. }
  destruct (rxq_reassign p r cpu (workers s)) as [ws reconfig] eqn:Hre.
  destruct (rxq_reassign_cpus _ _ _ _ _ _ Hre Hown Hcpu) as [Hnd Hshape].
  destruct reconfig; simplify_eq.
  - split.
    + split; cbn [workers ports].
      * now rewrite fmap_cpu_id_renumber.
      * rewrite <- list_fmap_compose. exact Hpid.
    + exists (λ c, index_of c (cpu_id <$> ws)). split.
      * now apply tx_symmetric_renumber.
      * cbn [workers]. rewrite fmap_cpu_id_renumber. intros Heq. contradiction.
  - split.
    + split; cbn [workers ports]; [|assumption]. now rewrite fmap_cpu_id_rxq_move.
    + exists idx. split; [|reflexivity].
      apply tx_symmetric_move; [apply rxq_move_cpu_id|apply rxq_move_txqs|].
      now destruct s.
Qed.

End WorkerProperties.

(** ** The tests that create a worker *)
Section WorkerScenario.
Import Worker.

(** C1, as stated, fails on [rxq_assign_new_worker]: [worker_rxq_assign(2, 1, 2)]
    creates a worker for CPU 2, which had none; the worker on CPU 1, alone
    before the call with TX queue id 0 on every port (line 219), has TX
    queue id 1 afterwards (line 233), and the new worker has TX queue id 0
    (line 234). *)
Lemma new_worker_shifts_txq_ids :
  let s := after_existing_worker_destroy in
  let res := worker_rxq_assign common_mocks s 2 1 2 in
  res.1 = 0
  /\ worker_find (workers s) 2 = None
  /\ cpu_id <$> workers s = [1%nat]
  /\ worker_count res.2 = 2%nat
  /\ assert_qmaps (txqs_at s 1) [q 1 0; q 2 0; q 0 0] = true
  /\ assert_qmaps (txqs_at res.2 1) [q 0 1; q 1 1; q 2 1] = true
  /\ assert_qmaps (txqs_at res.2 2) [q 0 0; q 1 0; q 2 0] = true
  /\ ¬ keeps_txq_ids s res.2.
Proof.
  repeat split; try reflexivity.
  intros Hkeep.
  destruct (Hkeep
    {| cpu_id := 1; rxqs := [q 0 0; q 0 1; q 1 0; q 1 1; q 2 0; q 2 1];
       txqs := [q 2 0; q 1 0; q 0 0] |}
    {| cpu_id := 1; rxqs := [q 0 0; q 0 1; q 1 0; q 1 1; q 2 0];
       txqs := [q 2 1; q 1 1; q 0 1] |}
    (q 2 0)) as (m' & Hin & _ & Hq).
  - vm_compute. apply list_elem_of_here.
  - vm_compute. apply list_elem_of_further, list_elem_of_here.
  - reflexivity.
  - apply list_elem_of_here.
  - cbn in Hin. repeat (apply elem_of_cons in Hin as [-> | Hin]; [discriminate|]).
    now apply elem_of_nil in Hin.
Qed.

(** The same call: the worker found on CPU 2 has queue id 0 in its three TX
    entries, the worker on CPU 1 has queue id 1 in each of its own. *)
Lemma new_worker_renumbers_txqs_witness :
  (exists w, worker_find (workers after_new_worker) 2 = Some w
             /\ port_id <$> txqs w = [2%nat; 1%nat; 0%nat]
             /\ forall m, m ∈ txqs w -> queue_id m = 0%nat)
  /\ (exists w' i, worker_find (workers after_new_worker) 1 = Some w'
                   /\ (1 <= i < 2)%nat
                   /\ forall m, m ∈ txqs w' -> queue_id m = i).
Proof.
  destruct (new_worker_renumbers_txqs common_mocks after_existing_worker_destroy 2 1 2
              after_new_worker eq_refl eq_refl) as [(w & m & Hw & _ & _ & _ & Hp & Hq) Hold].
  split; [exists w; split; [exact Hw|split; [exact Hp|exact Hq]]|].
  destruct (worker_find (workers after_new_worker) 1) as [w'|] eqn:Hw'; [|discriminate].
  assert (Hin : w' ∈ workers after_new_worker).
  { vm_compute in Hw'. injection Hw' as <-. vm_compute.
    apply list_elem_of_further, list_elem_of_here. }
  assert (Hne : cpu_id w' ≠ 2%nat).
  { vm_compute in Hw'. injection Hw' as <-. discriminate. }
  destruct (Hold w' Hin Hne) as (_ & i & Hi & _ & Hq').
  exists w', i. split; [reflexivity|]. split; [exact Hi|exact Hq'].
Defined.

(** Split a membership in a list that is written out into its cases. *)
Ltac list_cases :=
  repeat match goal with
         | H : _ ∈ _ :: _ |- _ => apply elem_of_cons in H as [-> | H]
         | H : _ ∈ [] |- _ => now apply elem_of_nil in H
         end.

Ltac nodup_cases :=
  cbn; repeat (apply NoDup_cons; split;
               [let H := fresh in
                intros H; repeat (apply elem_of_cons in H as [H|H]; [discriminate H|]);
                now apply elem_of_nil in H|]);
  apply NoDup_nil_2.

(** The state of [setup] has symmetric TX maps, the worker on CPU 1 with
    index 0 and the one on CPU 2 with index 1, and keeps them through
    [rxq_assign_existing_worker]. *)
Lemma tx_symmetric_preserved_witness :
  registries_wf after_existing_worker
  /\ exists idx', tx_symmetric after_existing_worker idx'.
Proof.
  destruct (tx_symmetric_preserved common_mocks setup 1 1 1 after_existing_worker
              (λ c, c - 1)%nat) as [Hwf (idx' & Hsym & _)].
  - split; nodup_cases.
  - repeat split.
    + intros w prt Hw Hprt. cbn in Hw, Hprt. list_cases; eexists; split; reflexivity.
    + intros w Hw. cbn in Hw. list_cases; cbn; lia.
    + intros w1 w2 Hw1 Hw2 Heq. cbn in Hw1, Hw2.
      list_cases; first [reflexivity | discriminate Heq].
    + intros i Hi. cbn in Hi. destruct i as [|[|i]]; [| |lia].
      * eexists. split; [apply list_elem_of_further, list_elem_of_here|reflexivity].
      * eexists. split; [apply list_elem_of_here|reflexivity].
  - reflexivity.
  - split; [exact Hwf|]. exists idx'. exact Hsym.
Defined.

End WorkerScenario.


(** ** The assertion macro of worker_test.c *)
Section AssertQmaps.
Import Worker.

Lemma is_rxq_qkey (ex m : queue_map) :
  is_rxq (port_id ex) (queue_id ex) m = true <-> qkey m = qkey ex.
Proof.
  unfold is_rxq, qkey. rewrite andb_true_iff, !bool_decide_eq_true. split.
  - intros [-> ->]. reflexivity.
  - intros H. now simplify_eq.
Qed.

(** What the macro checks: the lengths agree and every expected pair is
    among the actual ones. *)
Lemma assert_qmaps_true (qmaps expected : list queue_map) :
  assert_qmaps qmaps expected = true <->
  length qmaps = length expected
  /\ forall k, k ∈ qkey <$> expected -> k ∈ qkey <$> qmaps.
Proof.
  unfold assert_qmaps. rewrite andb_true_iff, bool_decide_eq_true, forallb_forall.
  split; intros [Hlen Hall]; (split; [assumption|]).
  - intros k Hk. apply list_elem_of_fmap in Hk as (ex & -> & Hex).
    apply list_elem_of_In in Hex. specialize (Hall ex Hex).
    apply existsb_exists in Hall as (m & Hm & Hr).
    apply list_elem_of_fmap. exists m. split; [symmetry; now apply is_rxq_qkey|].
    now apply list_elem_of_In.
  - intros ex Hex. apply existsb_exists.
    assert (Hk : qkey ex ∈ qkey <$> qmaps).
    { apply Hall, list_elem_of_fmap. exists ex. split; [reflexivity|now apply list_elem_of_In]. }
    apply list_elem_of_fmap in Hk as (m & Hk & Hm).
    exists m. split; [now apply list_elem_of_In|]. now apply is_rxq_qkey.
Qed.

(** X19: when the expected pairs are written without repetition,
    [assert_qmaps] passes exactly when the actual queue maps carry the same
    (port, queue) pairs as the expected ones, in any order and whatever their
    [enabled] flags. *)
Theorem assert_qmaps_permutation (qmaps expected : list queue_map) :
  NoDup (qkey <$> expected) ->
  assert_qmaps qmaps expected = true <-> qkey <$> qmaps ≡ₚ qkey <$> expected.
Proof.
  intros Hnd. rewrite assert_qmaps_true. split.
  - intros [Hlen Hall]. symmetry.
    apply submseteq_length_Permutation.
    + now apply NoDup_submseteq.
    + rewrite !length_fmap. lia.
  - intros Hperm. split.
    + apply Permutation_length in Hperm. now rewrite !length_fmap in Hperm.
    + intros k Hk. now rewrite Hperm.
Qed.

(** The pairs of line 195 against queue maps in the other order, one of
    them not enabled. *)
Lemma assert_qmaps_permutation_witness :
  qkey <$> [q 2 0; {| port_id := 2; queue_id := 1; enabled := false |}]
  ≡ₚ qkey <$> [q 2 1; q 2 0].
Proof.
  apply (assert_qmaps_permutation
           [q 2 0; {| port_id := 2; queue_id := 1; enabled := false |}] [q 2 1; q 2 0]).
  - cbn. apply NoDup_cons. split.
    + intros Hin. apply list_elem_of_singleton in Hin. discriminate.
    + apply NoDup_singleton.
  - reflexivity.
Defined.

End AssertQmaps.
